(** * confluence-markdown-exporter: the command-line layer ([main.py])

    A shallow embedding of the commands of
    [confluence_markdown_exporter/main.py] and of the Python built-ins they
    call ([str.isdigit], [int], [str.join], [re.sub]), with the properties
    of identifier resolution, space-key normalisation and export dispatch.

    Python strings are sequences of Unicode code points: a code point is an
    [N], a [str] is a [list N]. The built-ins are those of CPython 3.11
    (Unicode 14.0.0). The modules [main.py] imports from its own package
    are not part of it: they are the fields of the class [Collaborators],
    and [set_setting] and [measure] are modelled from the specification. *)

From Stdlib Require Import ZArith NArith List Bool Lia.
From Stdlib Require Import String Ascii.
From stdpp Require Import gmap strings list fin_maps.

Local Open Scope N_scope.

Definition str := list N.

(** A source-code string literal, as the [str] of its code points (the
    literals of [main.py] are all ASCII). *)
Definition lit (s : string) : str :=
  List.map N_of_ascii (list_ascii_of_string s).

(** Exceptions. [ValueError] is the one the built-ins used here raise;
    every other exception (raised by the collaborators) is [OtherError],
    identified by a number. *)
Inductive exn := ValueError | OtherError (code : N).

Inductive outcome (A : Type) :=
| Return (a : A)
| Raise (e : exn).
Arguments Return {A} a.
Arguments Raise {A} e.

(** ** Python built-ins on [str] *)

Module Py.

(** One run of consecutive code points with the Unicode property
    Numeric_Type=Digit or Decimal: the code point [run_lo + i] has the
    digit value [run_value + i]; [run_decimal] tells Decimal from Digit. *)
Record digit_run := R {
  run_lo : N; run_hi : N; run_value : N; run_decimal : bool }.

(** The digit records of the Unicode character database 14.0.0 (the one
    CPython 3.11 ships in [unicodetype_db.h]), in increasing order. *)
Definition unicode_digit_runs : list digit_run := [
    R 0x30 0x39 0 true; R 0xb2 0xb3 2 false; R 0xb9 0xb9 1 false;
    R 0x660 0x669 0 true; R 0x6f0 0x6f9 0 true; R 0x7c0 0x7c9 0 true;
    R 0x966 0x96f 0 true; R 0x9e6 0x9ef 0 true; R 0xa66 0xa6f 0 true;
    R 0xae6 0xaef 0 true; R 0xb66 0xb6f 0 true; R 0xbe6 0xbef 0 true;
    R 0xc66 0xc6f 0 true; R 0xce6 0xcef 0 true; R 0xd66 0xd6f 0 true;
    R 0xde6 0xdef 0 true; R 0xe50 0xe59 0 true; R 0xed0 0xed9 0 true;
    R 0xf20 0xf29 0 true; R 0x1040 0x1049 0 true; R 0x1090 0x1099 0 true;
    R 0x1369 0x1371 1 false; R 0x17e0 0x17e9 0 true; R 0x1810 0x1819 0 true;
    R 0x1946 0x194f 0 true; R 0x19d0 0x19d9 0 true; R 0x19da 0x19da 1 false;
    R 0x1a80 0x1a89 0 true; R 0x1a90 0x1a99 0 true; R 0x1b50 0x1b59 0 true;
    R 0x1bb0 0x1bb9 0 true; R 0x1c40 0x1c49 0 true; R 0x1c50 0x1c59 0 true;
    R 0x2070 0x2070 0 false; R 0x2074 0x2079 4 false; R 0x2080 0x2089 0 false;
    R 0x2460 0x2468 1 false; R 0x2474 0x247c 1 false; R 0x2488 0x2490 1 false;
    R 0x24ea 0x24ea 0 false; R 0x24f5 0x24fd 1 false; R 0x24ff 0x24ff 0 false;
    R 0x2776 0x277e 1 false; R 0x2780 0x2788 1 false; R 0x278a 0x2792 1 false;
    R 0xa620 0xa629 0 true; R 0xa8d0 0xa8d9 0 true; R 0xa900 0xa909 0 true;
    R 0xa9d0 0xa9d9 0 true; R 0xa9f0 0xa9f9 0 true; R 0xaa50 0xaa59 0 true;
    R 0xabf0 0xabf9 0 true; R 0xff10 0xff19 0 true; R 0x104a0 0x104a9 0 true;
    R 0x10a40 0x10a43 1 false; R 0x10d30 0x10d39 0 true; R 0x10e60 0x10e68 1 false;
    R 0x11052 0x1105a 1 false; R 0x11066 0x1106f 0 true; R 0x110f0 0x110f9 0 true;
    R 0x11136 0x1113f 0 true; R 0x111d0 0x111d9 0 true; R 0x112f0 0x112f9 0 true;
    R 0x11450 0x11459 0 true; R 0x114d0 0x114d9 0 true; R 0x11650 0x11659 0 true;
    R 0x116c0 0x116c9 0 true; R 0x11730 0x11739 0 true; R 0x118e0 0x118e9 0 true;
    R 0x11950 0x11959 0 true; R 0x11c50 0x11c59 0 true; R 0x11d50 0x11d59 0 true;
    R 0x11da0 0x11da9 0 true; R 0x16a60 0x16a69 0 true; R 0x16ac0 0x16ac9 0 true;
    R 0x16b50 0x16b59 0 true; R 0x1d7ce 0x1d7d7 0 true; R 0x1d7d8 0x1d7e1 0 true;
    R 0x1d7e2 0x1d7eb 0 true; R 0x1d7ec 0x1d7f5 0 true; R 0x1d7f6 0x1d7ff 0 true;
    R 0x1e140 0x1e149 0 true; R 0x1e2f0 0x1e2f9 0 true; R 0x1e950 0x1e959 0 true;
    R 0x1f100 0x1f100 0 false; R 0x1f101 0x1f10a 0 false; R 0x1fbf0 0x1fbf9 0 true
  ].

(** The code points for which [Py_UNICODE_ISSPACE] holds. *)
Definition unicode_space_ranges : list (N * N) := [
    (0x9, 0xd); (0x1c, 0x20); (0x85, 0x85); (0xa0, 0xa0); (0x1680, 0x1680);
    (0x2000, 0x200a); (0x2028, 0x2029); (0x202f, 0x202f); (0x205f, 0x205f);
    (0x3000, 0x3000)
  ].

Definition in_run (ch : N) (r : digit_run) : bool :=
  (run_lo r <=? ch) && (ch <=? run_hi r).

Definition find_run (ch : N) : option digit_run :=
  List.find (in_run ch) unicode_digit_runs.

(** [_PyUnicode_ToDigit]: the digit value, [None] for CPython's [-1]. *)
Definition Py_UNICODE_TODIGIT (ch : N) : option N :=
  match find_run ch with
  | Some r => Some (run_value r + (ch - run_lo r))
  | None => None
  end.

(** [_PyUnicode_ToDecimalDigit]. *)
Definition Py_UNICODE_TODECIMAL (ch : N) : option N :=
  match find_run ch with
  | Some r => if run_decimal r then Some (run_value r + (ch - run_lo r)) else None
  | None => None
  end.

Definition Py_UNICODE_ISDIGIT (ch : N) : bool :=
  match Py_UNICODE_TODIGIT ch with Some _ => true | None => false end.

Definition Py_UNICODE_ISDECIMAL (ch : N) : bool :=
  match Py_UNICODE_TODECIMAL ch with Some _ => true | None => false end.

Definition Py_UNICODE_ISSPACE (ch : N) : bool :=
  existsb (fun r => (fst r <=? ch) && (ch <=? snd r)) unicode_space_ranges.

(** [str.isdigit()]: every character is a digit and there is at least one
    character. *)
Definition isdigit (s : str) : bool :=
  match s with
  | [] => false
  | _ => forallb Py_UNICODE_ISDIGIT s
  end.


(** [sep.join(items)]. *)
Fixpoint join (sep : str) (items : list str) : str :=
  match items with
  | [] => []
  | [x] => x
  | x :: rest => x ++ sep ++ join sep rest
  end.

(** *** [int(s)] for a [str] argument

    CPython: [PyLong_FromUnicodeObject] maps the string to ASCII with
    [_PyUnicode_TransformDecimalAndSpaceToASCII] and parses the result with
    [PyLong_FromString] in base 10; whatever is not consumed to the end is
    a [ValueError]. *)

(** ASCII white space of [pyctype.h]. *)
Definition Py_ISSPACE (c : N) : bool :=
  (c =? 32) || ((9 <=? c) && (c <=? 13)).

Definition is_ascii_digit (c : N) : bool := (48 <=? c) && (c <=? 57).

(** Code points below 127 are kept, white space becomes a blank, a decimal
    digit becomes its ASCII digit; the first other character becomes ['?']
    and ends the result. *)
Fixpoint _PyUnicode_TransformDecimalAndSpaceToASCII (s : str) : list N :=
  match s with
  | [] => []
  | ch :: s' =>
      if ch <? 127 then ch :: _PyUnicode_TransformDecimalAndSpaceToASCII s'
      else if Py_UNICODE_ISSPACE ch
      then 32 :: _PyUnicode_TransformDecimalAndSpaceToASCII s'
      else match Py_UNICODE_TODECIMAL ch with
           | Some d => (48 + d) :: _PyUnicode_TransformDecimalAndSpaceToASCII s'
           | None => [63]
           end
  end.

Fixpoint skip_spaces (buf : list N) : list N :=
  match buf with
  | c :: buf' => if Py_ISSPACE c then skip_spaces buf' else buf
  | [] => []
  end.

(** The scan over digits and single underscores: [prev] is the previous
    character, [digits] the number of digits seen, [acc] their value.
    [None] when two underscores follow each other. *)
Fixpoint scan_digits (prev : N) (digits : nat) (acc : Z) (buf : list N)
  : option (N * nat * Z * list N) :=
  match buf with
  | c :: buf' =>
      if is_ascii_digit c
      then scan_digits c (S digits) (10 * acc + Z.of_N (c - 48)) buf'
      else if c =? 95
           then if prev =? 95 then None else scan_digits c digits acc buf'
           else Some (prev, digits, acc, buf)
  | [] => Some (prev, digits, acc, [])
  end.

Section Int.

(** [sys.get_int_max_str_digits()]: 4300 unless configured otherwise, 0
    for no limit. *)
Variable max_str_digits : nat.

(** [sys.int_info.str_digits_check_threshold]. *)
Definition str_digits_check_threshold : nat := 640.

Definition exceeds_limit (digits : nat) : bool :=
  (str_digits_check_threshold <? digits)%nat
  && (0 <? max_str_digits)%nat && (max_str_digits <? digits)%nat.

(** [PyLong_FromString(buf, &end, 10)] together with the caller's check
    that [end] is the end of the buffer. *)
Definition PyLong_FromString (buf : list N) : outcome Z :=
  let buf1 := skip_spaces buf in
  let '(sign, buf2) :=
    match buf1 with
    | 43 :: r => (1%Z, r)
    | 45 :: r => ((-1)%Z, r)
    | _ => (1%Z, buf1)
    end in
  match buf2 with
  | 95 :: _ => Raise ValueError
  | _ =>
      match scan_digits 0 0 0 buf2 with
      | None => Raise ValueError
      | Some (prev, digits, acc, rest) =>
          if prev =? 95 then Raise ValueError
          else if exceeds_limit digits then Raise ValueError
          else if (digits =? 0)%nat then Raise ValueError
          else match skip_spaces rest with
               | [] => Return (sign * acc)%Z
               | _ :: _ => Raise ValueError
               end
      end
  end.

Definition int (s : str) : outcome Z :=
  PyLong_FromString (_PyUnicode_TransformDecimalAndSpaceToASCII s).

End Int.

End Py.


(** ** The [re] module, for patterns of ASCII characters

    A pattern is the node list [sre_parse] produces. Only the nodes the
    source's pattern needs are modelled: the anchor [^], literals and
    character sets. *)

Module re.

(** The flags that change how these nodes match. *)
Record flags := { ignorecase : bool; multiline : bool }.

(** [re.IGNORECASE] alone, as the source passes it. *)
Definition IGNORECASE : flags := {| ignorecase := true; multiline := false |}.

Inductive in_item :=
| RANGE (lo hi : N)
| CHAR (c : N).

Inductive node :=
| AT_BEGINNING
| LITERAL (c : N)
| IN (items : list in_item).

(** [_sre.unicode_tolower], the simple lowercase mapping, on the code
    points whose lowercase is an ASCII letter, U+0131 or U+017F: these are
    A-Z, U+0130 (lowercase [i]) and U+212A (lowercase [k]), and the targets
    themselves. Every other code point is left in place here; its real
    lowercase is outside that set as well, so membership of the lowercase
    in a set of folded ASCII letters is the same. *)
Definition unicode_tolower (ch : N) : N :=
  if (65 <=? ch) && (ch <=? 90) then ch + 32
  else if ch =? 0x130 then 0x69
  else if ch =? 0x212a then 0x6b
  else ch.

(** [_sre.unicode_iscased] on ASCII: the letters. *)
Definition unicode_iscased (c : N) : bool :=
  ((65 <=? c) && (c <=? 90)) || ((97 <=? c) && (c <=? 122)).

(** [_casefix._EXTRA_CASES] on ASCII: the other lowercase characters with
    the same uppercase. *)
Definition extra_cases (lo : N) : list N :=
  if lo =? 0x69 then [0x131]
  else if lo =? 0x73 then [0x17f]
  else [].

(** What a pattern character compiles to under [IGNORECASE]: its lowercase
    and the extra cases of it. *)
Definition folded (c : N) : list N :=
  let lo := unicode_tolower c in lo :: extra_cases lo.

Definition codes (lo hi : N) : list N :=
  List.map N.of_nat (seq (N.to_nat lo) (N.to_nat hi + 1 - N.to_nat lo)).

Definition members (items : list in_item) : list N :=
  flat_map (fun it => match it with
                      | RANGE lo hi => codes lo hi
                      | CHAR c => [c]
                      end) items.

Definition mem (ch : N) (l : list N) : bool := existsb (N.eqb ch) l.

(** [LITERAL c] against the character [ch]: [LITERAL] for an uncased [c],
    else [LITERAL_UNI_IGNORE] or [IN_UNI_IGNORE] on the lowercase of [ch]. *)
Definition literal_matches (fl : flags) (c ch : N) : bool :=
  if ignorecase fl && unicode_iscased c
  then mem (unicode_tolower ch) (folded c)
  else ch =? c.

(** [IN items] against [ch]: [IN_UNI_IGNORE] on the folded set when the
    set has a cased member, else [IN]. *)
Definition in_matches (fl : flags) (items : list in_item) (ch : N) : bool :=
  if ignorecase fl && existsb unicode_iscased (members items)
  then mem (unicode_tolower ch) (flat_map folded (members items))
  else mem ch (members items).

(** [^]: the start of the string, and with [MULTILINE] also after a
    newline. [prev] is the character before the position. *)
Definition at_beginning (fl : flags) (prev : option N) : bool :=
  match prev with
  | None => true
  | Some c => multiline fl && (c =? 10)
  end.

(** The match of the nodes at one position: the last character consumed
    (or [prev]) and the rest of the subject. *)
Fixpoint sre_match (fl : flags) (pat : list node) (prev : option N) (s : str)
  : option (option N * str) :=
  match pat with
  | [] => Some (prev, s)
  | AT_BEGINNING :: pat' =>
      if at_beginning fl prev then sre_match fl pat' prev s else None
  | LITERAL c :: pat' =>
      match s with
      | ch :: s' =>
          if literal_matches fl c ch then sre_match fl pat' (Some ch) s' else None
      | [] => None
      end
  | IN items :: pat' =>
      match s with
      | ch :: s' =>
          if in_matches fl items ch then sre_match fl pat' (Some ch) s' else None
      | [] => None
      end
  end.

(** A match of these nodes is empty when none of them consumes. *)
Definition matches_empty (pat : list node) : bool :=
  forallb (fun n => match n with AT_BEGINNING => true | _ => false end) pat.

(** [sre_search]: the leftmost match at or after the position; the
    characters skipped before it, then as [sre_match]. With [must_advance]
    an empty match at the first position is not taken. *)
Fixpoint sre_search (fl : flags) (pat : list node) (must_advance : bool)
    (prev : option N) (s : str) : option (str * option N * str) :=
  match (if must_advance && matches_empty pat then None
         else sre_match fl pat prev s) with
  | Some (prev', rest) => Some ([], prev', rest)
  | None =>
      match s with
      | [] => None
      | ch :: s' =>
          match sre_search fl pat false (Some ch) s' with
          | Some (skipped, prev', rest) => Some (ch :: skipped, prev', rest)
          | None => None
          end
      end
  end.

(** The loop of [pattern_subx] for a replacement without group
    references: [budget] replacements are still allowed. *)
Fixpoint subx (fl : flags) (pat : list node) (repl : str) (budget : nat)
    (must_advance : bool) (prev : option N) (s : str) : str :=
  match budget with
  | O => s
  | S budget' =>
      match sre_search fl pat must_advance prev s with
      | None => s
      | Some (skipped, prev', rest) =>
          skipped ++ repl
          ++ subx fl pat repl budget' (matches_empty pat) prev' rest
      end
  end.

(** [re.sub(pattern, repl, string, count, flags)]; [count = 0] replaces
    every match, of which there are at most [length string + 1]. *)
Definition sub (pattern : list node) (repl string : str) (count : nat)
    (fl : flags) : str :=
  subx fl pattern repl
    (if (count =? 0)%nat then S (length string) else count) false None string.

End re.

(** ** Space-key normalisation *)

(** The pattern [r"^[A-Z]:\\Users\\"], as [sre_parse.parse] returns it:
    [AT_BEGINNING], [IN [RANGE (65, 90)]], then the literals
    [:\Users\]. *)
Definition drive_letter_pattern : list re.node :=
  [re.AT_BEGINNING; re.IN [re.RANGE 65 90]; re.LITERAL 58; re.LITERAL 92;
   re.LITERAL 85; re.LITERAL 115; re.LITERAL 101; re.LITERAL 114;
   re.LITERAL 115; re.LITERAL 92].

Definition _normalize_space_key (space_key : str) : str :=
  re.sub drive_letter_pattern (lit "~") space_key 1 re.IGNORECASE.

(** The strings the pattern matches, spelled out. Under [re.IGNORECASE]
    the set [[A-Z]] takes the 52 ASCII letters and U+0130, U+0131, U+017F
    and U+212A, and the letter [s] also takes U+017F. *)
Definition drive_letter (c : N) : bool :=
  ((65 <=? c) && (c <=? 90)) || ((97 <=? c) && (c <=? 122))
  || (c =? 0x130) || (c =? 0x131) || (c =? 0x17f) || (c =? 0x212a).

(** The character is the ASCII letter with the lowercase [lo], in either
    case. *)
Definition letter (lo c : N) : bool := (c =? lo) || (c =? lo - 32).

Definition letter_s (c : N) : bool := letter 115 c || (c =? 0x17f).

(** [home_prefix s] is what follows a leading [<drive letter>:\Users\],
    if [s] starts with one. *)
Definition home_prefix (s : str) : option str :=
  match s with
  | d :: colon :: b1 :: cu :: cs :: ce :: cr :: cs' :: b2 :: rest =>
      if drive_letter d && (colon =? 58) && (b1 =? 92) && letter 117 cu
         && letter_s cs && letter 101 ce && letter 114 cr && letter_s cs'
         && (b2 =? 92)
      then Some rest else None
  | _ => None
  end.

(** ** The collaborators and the command monad *)

Definition Path := str.

(** The values a setting can hold. *)
Inductive value :=
| VPath (p : Path)
| VStr (s : str)
| VInt (n : Z)
| VBool (b : bool).

(** The settings store, by dotted path. *)
Abbreviation Settings := (gmap string value).

(** A call into a collaborator reads the settings, changes the world
    outside (Confluence, the disk, the terminal) and returns or raises. *)
Definition ext (World A : Type) : Type :=
  Settings -> World -> outcome A * World.

(** The modules [main.py] imports and the interpreter it runs on
    ([max_str_digits] is [sys.get_int_max_str_digits()]). As the
    specification has it, the entity layer ([Page], [Space],
    [Organization]) reads the settings and does not write them; so does
    [get_settings]; the interactive menu may write them. *)
Class Collaborators := {
  World : Type;
  Page : Type;
  Space : Type;
  Organization : Type;
  ConfigModel : Type;
  Dict : Type;
  max_str_digits : nat;
  Page_from_id : Z -> ext World Page;
  Page_from_url : str -> ext World Page;
  Page_export : Page -> ext World unit;
  Page_export_with_descendants : Page -> ext World unit;
  Space_from_key : str -> ext World Space;
  Space_export : Space -> ext World unit;
  Organization_from_api : ext World Organization;
  Organization_export : Organization -> ext World unit;
  set_setting_validate : string -> value -> ext World unit;
  get_settings : ext World ConfigModel;
  model_dump : ConfigModel -> Dict;
  sanitize_config : Dict -> Dict;
  json_dumps : Dict -> nat -> str;
  main_config_menu_loop :
    option str -> Settings -> World -> outcome unit * Settings * World
}.

Section Commands.
Context `{C : Collaborators}.

(** What a command does that can be seen from outside, in order: every
    call into a collaborator with its arguments and its result. *)
Inductive event :=
| E_measure_enter (step : str)
| E_measure_exit
| E_set_setting (path : string) (v : value) (r : outcome unit)
| E_Page_from_id (page_id : Z) (r : outcome Page)
| E_Page_from_url (page_url : str) (r : outcome Page)
| E_Page_export (p : Page) (r : outcome unit)
| E_Page_export_with_descendants (p : Page) (r : outcome unit)
| E_Space_from_key (space_key : str) (r : outcome Space)
| E_Space_export (s : Space) (r : outcome unit)
| E_Organization_from_api (r : outcome Organization)
| E_Organization_export (o : Organization) (r : outcome unit)
| E_get_settings (r : outcome ConfigModel)
| E_echo (message : str)
| E_main_config_menu_loop (jump_to : option str) (r : outcome unit).

(** A computation: from the settings and the world to an outcome, the new
    settings and world, and the events in the order they happened. An
    exception keeps what was done before it. *)
Definition M (A : Type) : Type :=
  Settings -> World -> outcome A * Settings * World * list event.

Definition ret {A} (a : A) : M A := fun σ w => (Return a, σ, w, []).

Definition raise {A} (e : exn) : M A := fun σ w => (Raise e, σ, w, []).

Definition bind {A B} (m : M A) (k : A -> M B) : M B :=
  fun σ w =>
    match m σ w with
    | (Return a, σ1, w1, t1) =>
        match k a σ1 w1 with
        | (r, σ2, w2, t2) => (r, σ2, w2, t1 ++ t2)
        end
    | (Raise e, σ1, w1, t1) => (Raise e, σ1, w1, t1)
    end.

(** A pure built-in that may raise. *)
Definition lift {A} (r : outcome A) : M A :=
  match r with
  | Return a => ret a
  | Raise e => raise e
  end.

(** A call into a collaborator, recorded as the event [ev]. *)
Definition call {A} (ev : outcome A -> event) (f : ext World A) : M A :=
  fun σ w => match f σ w with (r, w') => (r, σ, w', [ev r]) end.

(** [for x in xs: body]. *)
Fixpoint for_each {A} (xs : list A) (body : A -> M unit) : M unit :=
  match xs with
  | [] => ret tt
  | x :: xs' => bind (body x) (fun _ => for_each xs' body)
  end.

End Commands.

Notation "'let!' x ':=' m 'in' k" := (bind m (fun x => k))
  (at level 10, x name, m at level 100, k at level 200).
Notation "m >> k" := (bind m (fun _ => k))
  (at level 90, right associativity).

Section Main.
Context `{C : Collaborators}.

(** Modelled from the spec: [set_setting] of [utils/app_data_store.py],
    which is not among the sources. It writes the value under the dotted
    path; a configuration error (invalid path or value) is raised by the
    store and nothing is written. *)
Definition set_setting (path : string) (v : value) : M unit :=
  fun σ w =>
    match set_setting_validate path v σ w with
    | (Return _, w') =>
        (Return tt, <[path := v]> σ, w', [E_set_setting path v (Return tt)])
    | (Raise e, w') => (Raise e, σ, w', [E_set_setting path v (Raise e)])
    end.

(** Modelled from the spec: the context manager [measure] of
    [utils/measure_time.py], which is not among the sources. It wraps the
    batch in one measured scope labelled [step]; it does not affect control
    flow or error handling: the outcome of the body, an exception too,
    passes through. *)
Definition measure {A} (step : str) (body : M A) : M A :=
  fun σ w =>
    match body σ w with
    | (r, σ', w', t) => (r, σ', w', E_measure_enter step :: t ++ [E_measure_exit])
    end.


Definition override_output_path_config (v : option Path) : M unit :=
  match v with
  | Some p => set_setting "export.output_path" (VPath p)
  | None => ret tt
  end.

(** [Page.from_id(int(page)) if page.isdigit() else Page.from_url(page)],
    the expression both page commands assign to [_page]. *)
Definition _page (page : str) : M Page :=
  if Py.isdigit page
  then let! n := lift (Py.int max_str_digits page) in
       call (E_Page_from_id n) (Page_from_id n)
  else call (E_Page_from_url page) (Page_from_url page).

Definition pages (pages : list str) (output_path : option Path) : M unit :=
  measure (lit "Export pages " ++ Py.join (lit ", ") pages)
    (override_output_path_config output_path >>
     for_each pages (fun page =>
       let! p := _page page in
       call (E_Page_export p) (Page_export p))).

Definition pages_with_descendants (pages : list str)
    (output_path : option Path) : M unit :=
  measure (lit "Export pages " ++ Py.join (lit ", ") pages
           ++ lit " with descendants")
    (override_output_path_config output_path >>
     for_each pages (fun page =>
       let! p := _page page in
       call (E_Page_export_with_descendants p)
            (Page_export_with_descendants p))).

Definition spaces (space_keys : list str) (output_path : option Path)
  : M unit :=
  let normalized_space_keys := List.map _normalize_space_key space_keys in
  measure (lit "Export spaces " ++ Py.join (lit ", ") normalized_space_keys)
    (override_output_path_config output_path >>
     for_each normalized_space_keys (fun space_key =>
       let! space := call (E_Space_from_key space_key)
                          (Space_from_key space_key) in
       call (E_Space_export space) (Space_export space))).

Definition all_spaces (output_path : option Path) : M unit :=
  measure (lit "Export all spaces")
    (override_output_path_config output_path >>
     let! org := call E_Organization_from_api Organization_from_api in
     call (E_Organization_export org) (Organization_export org)).


End Main.

(** ** Vocabulary of the properties *)

(** The number a string of decimal digits denotes in base 10. *)
Definition parseInt (s : str) : Z :=
  fold_left (fun acc ch =>
               (10 * acc + Z.of_N (default 0%N (Py.Py_UNICODE_TODECIMAL ch)))%Z)
            s 0%Z.

Definition all_decimal (s : str) : Prop :=
  List.Forall (fun ch => Py.Py_UNICODE_ISDECIMAL ch = true) s.

Definition all_ascii_digits (s : str) : Prop :=
  List.Forall (fun ch => Py.is_ascii_digit ch = true) s.

(** Some character of the string is not a digit for [str.isdigit]. *)
Definition has_non_digit (s : str) : Prop :=
  List.Exists (fun ch => Py.Py_UNICODE_ISDIGIT ch = false) s.


Section Observations.
Context `{C : Collaborators}.

Definition outcome_of {A} (res : outcome A * Settings * World * list event)
  : outcome A := res.1.1.1.

Definition settings_of {A} (res : outcome A * Settings * World * list event)
  : Settings := res.1.1.2.

Definition events_of {A} (res : outcome A * Settings * World * list event)
  : list event := res.2.

Definition is_set_setting (ev : event) : bool :=
  match ev with E_set_setting _ _ _ => true | _ => false end.

(** Calls of a constructor or an export method of the entity layer. *)
Definition is_entity_call (ev : event) : bool :=
  match ev with
  | E_Page_from_id _ _ | E_Page_from_url _ _ | E_Page_export _ _
  | E_Page_export_with_descendants _ _ | E_Space_from_key _ _
  | E_Space_export _ _ | E_Organization_from_api _
  | E_Organization_export _ _ => true
  | _ => false
  end.

(** Export calls that returned. *)
Definition is_export_done (ev : event) : bool :=
  match ev with
  | E_Page_export _ (Return _) | E_Page_export_with_descendants _ (Return _)
  | E_Space_export _ (Return _) | E_Organization_export _ (Return _) => true
  | _ => false
  end.

Definition is_Page_from_id (ev : event) : bool :=
  match ev with E_Page_from_id _ _ => true | _ => false end.




(** The keys [Space.from_key] was called with, in order. *)
Definition from_key_args (t : list event) : list str :=
  omap (fun ev => match ev with
                  | E_Space_from_key k _ => Some k
                  | _ => None
                  end) t.

(** The events of a batch over [xs] that constructs an object from each
    item and exports it at once, up to the first call that raises. *)
Inductive batch_trace {X Obj : Type} (ctor : X -> outcome Obj -> event)
    (export : Obj -> outcome unit -> event)
  : list X -> outcome unit -> list event -> Prop :=
| batch_done : batch_trace ctor export [] (Return tt) []
| batch_ctor_raises x xs e :
    batch_trace ctor export (x :: xs) (Raise e) [ctor x (Raise e)]
| batch_export_raises x xs o e :
    batch_trace ctor export (x :: xs) (Raise e)
      [ctor x (Return o); export o (Raise e)]
| batch_next x xs o r t :
    batch_trace ctor export xs r t ->
    batch_trace ctor export (x :: xs) r
      (ctor x (Return o) :: export o (Return tt) :: t).

(** The events of a batch in which nothing raised, with the object each
    item gave. *)
Definition batch_events {X Obj : Type} (ctor : X -> outcome Obj -> event)
    (export : Obj -> outcome unit -> event) (items : list (X * Obj))
  : list event :=
  flat_map (fun xo => [ctor xo.1 (Return xo.2); export xo.2 (Return tt)]) items.

End Observations.

Section Contracts.
Context `{C : Collaborators}.

(** The bodies of the three [for] loops. *)
Definition pages_body (page : str) : M unit :=
  let! p := _page page in
  call (E_Page_export p) (Page_export p).

Definition pages_with_descendants_body (page : str) : M unit :=
  let! p := _page page in
  call (E_Page_export_with_descendants p) (Page_export_with_descendants p).

Definition spaces_body (space_key : str) : M unit :=
  let! space := call (E_Space_from_key space_key) (Space_from_key space_key) in
  call (E_Space_export space) (Space_export space).

(** The labels of the measured scopes. *)
Definition pages_step (pages : list str) : str :=
  lit "Export pages " ++ Py.join (lit ", ") pages.

Definition pages_with_descendants_step (pages : list str) : str :=
  lit "Export pages " ++ Py.join (lit ", ") pages ++ lit " with descendants".

Definition spaces_step (space_keys : list str) : str :=
  lit "Export spaces "
  ++ Py.join (lit ", ") (List.map _normalize_space_key space_keys).

(** A computation that leaves the settings as they are and never calls
    [set_setting]. *)
Definition writes_no_setting {A} (m : M A) : Prop :=
  forall σ w,
    settings_of (m σ w) = σ
    /\ List.Forall (fun ev => is_set_setting ev = false) (events_of (m σ w)).

(** The contract of the output-path option of a command. Without the
    option the command never calls [set_setting] and leaves the settings
    as they were. With it, [set_setting] is the first call inside the
    measured scope, hence before every call of the entity layer, and it is
    the only one; when the store accepts the value, the settings at the end
    of the command, however it ends, are the old ones with the new output
    path; when the store rejects it, nothing else is called. *)
Definition override_contract (cmd : option Path -> M unit) : Prop :=
  forall (output_path : option Path) (σ : Settings) (w : World),
    match output_path with
    | None =>
        settings_of (cmd None σ w) = σ
        /\ List.Forall (fun ev => is_set_setting ev = false)
                       (events_of (cmd None σ w))
    | Some p =>
        exists step r t,
          events_of (cmd (Some p) σ w)
          = E_measure_enter step
            :: E_set_setting "export.output_path" (VPath p) r :: t
          /\ List.Forall (fun ev => is_set_setting ev = false) t
          /\ match r with
             | Return _ =>
                 settings_of (cmd (Some p) σ w)
                 = <["export.output_path"%string := VPath p]> σ
             | Raise e =>
                 settings_of (cmd (Some p) σ w) = σ
                 /\ t = [E_measure_exit]
                 /\ outcome_of (cmd (Some p) σ w) = Raise e
             end
    end.

(** Fail-fast batches. The batch is [pre ++ x :: post]; each item goes
    through [prep] before the loop. When the override and the items of
    [pre] went through without an exception and the body raises [e] on
    [x], the command raises that same [e]; its events are those of [pre],
    one returned export for each, then those of [x] up to the failure,
    then the end of the measured scope: nothing is called for [post]. *)
Definition fail_fast {X Y : Type} (cmd : list X -> option Path -> M unit)
    (step : list X -> str) (prep : X -> Y) (body : Y -> M unit) : Prop :=
  forall pre x post output_path σ w σ1 w1 t1 e σ2 w2 t2,
    (override_output_path_config output_path >>
     for_each (List.map prep pre) body) σ w = (Return tt, σ1, w1, t1) ->
    body (prep x) σ1 w1 = (Raise e, σ2, w2, t2) ->
    cmd (pre ++ x :: post) output_path σ w
    = (Raise e, σ2, w2,
       E_measure_enter (step (pre ++ x :: post))
       :: t1 ++ t2 ++ [E_measure_exit])
    /\ length (List.filter is_export_done t1) = length pre
    /\ List.filter is_export_done t2 = [].

(** A loop body that performs one export when it returns and none when
    it raises. *)
Definition one_export {Y} (body : Y -> M unit) : Prop :=
  forall y σ w,
    match outcome_of (body y σ w) with
    | Return _ =>
        length (List.filter is_export_done (events_of (body y σ w))) = 1%nat
    | Raise _ => List.filter is_export_done (events_of (body y σ w)) = []
    end.

(** A token [int] reads: not empty, decimal digits only, within the
    length limit of the interpreter. *)
Definition numeric (token : str) : Prop :=
  token <> [] /\ all_decimal token
  /\ Py.exceeds_limit max_str_digits (length token) = false.

(** The same for [all_spaces], whose batch is the one organization. *)
Definition all_spaces_fail_fast : Prop :=
  forall output_path σ w σ1 w1 t1,
    override_output_path_config output_path σ w = (Return tt, σ1, w1, t1) ->
    (forall e w2,
        Organization_from_api σ1 w1 = (Raise e, w2) ->
        all_spaces output_path σ w
        = (Raise e, σ1, w2,
           E_measure_enter (lit "Export all spaces")
           :: t1 ++ [E_Organization_from_api (Raise e); E_measure_exit]))
    /\ (forall org w2 e w3,
           Organization_from_api σ1 w1 = (Return org, w2) ->
           Organization_export org σ1 w2 = (Raise e, w3) ->
           all_spaces output_path σ w
           = (Raise e, σ1, w3,
              E_measure_enter (lit "Export all spaces")
              :: t1 ++ [E_Organization_from_api (Return org);
                        E_Organization_export org (Raise e);
                        E_measure_exit])).

End Contracts.

(** Identifier resolution as the specification words it, for one token: a
    token of ASCII digits only goes to [Page.from_id] with its number, a
    non-empty token with a character that is not an ASCII digit goes to
    [Page.from_url] unchanged. *)
Definition resolution_as_specified `{C : Collaborators} (token : str)
    (σ : Settings) (w : World) : Prop :=
  (all_ascii_digits token ->
   _page token σ w
   = call (E_Page_from_id (parseInt token)) (Page_from_id (parseInt token)) σ w)
  /\ (token <> [] ->
      List.Exists (fun ch => Py.is_ascii_digit ch = false) token ->
      _page token σ w = call (E_Page_from_url token) (Page_from_url token) σ w).

(** ** A test double of the collaborators

    Used to run the commands on concrete inputs. The world is whether the
    Confluence API can be reached. Page 404 does not exist, the export of
    page 500 fails, the space [MISSING] does not exist, an empty output
    path is rejected by the settings store. *)

Module Mock.

Inductive page := PageOfId (n : Z) | PageOfUrl (u : str).

Definition page_is_500 (p : page) : bool :=
  match p with PageOfId n => (n =? 500)%Z | PageOfUrl _ => false end.

Definition export_page (p : page) : ext bool unit :=
  fun _ w => if page_is_500 p then (Raise (OtherError 500), w) else (Return tt, w).

Definition is_secret (k : string) : bool := String.eqb k "auth.api_token".

Definition redact (kv : string * str) : string * str :=
  if is_secret kv.1 then (kv.1, lit "***") else kv.


Definition dumps (d : list (string * str)) (indent : nat) : str :=
  lit "{" ++ flat_map (fun kv => [10] ++ repeat 32 indent ++ lit kv.1
                                ++ lit ": " ++ kv.2) d ++ [10] ++ lit "}".

#[local] Instance collaborators : Collaborators := {|
  World := bool;
  Page := page;
  Space := str;
  Organization := unit;
  ConfigModel := list (string * str);
  Dict := list (string * str);
  max_str_digits := 4300;
  Page_from_id := fun n _ w =>
    if (n =? 404)%Z then (Raise (OtherError 404), w) else (Return (PageOfId n), w);
  Page_from_url := fun u _ w => (Return (PageOfUrl u), w);
  Page_export := export_page;
  Page_export_with_descendants := export_page;
  Space_from_key := fun k _ w =>
    if bool_decide (k = lit "MISSING") then (Raise (OtherError 404), w)
    else (Return k, w);
  Space_export := fun _ _ w => (Return tt, w);
  Organization_from_api := fun _ w =>
    if w then (Return tt, w) else (Raise (OtherError 503), w);
  Organization_export := fun _ _ w => (Return tt, w);
  set_setting_validate := fun _ v _ w =>
    match v with
    | VPath [] => (Raise (OtherError 422), w)
    | _ => (Return tt, w)
    end;
  get_settings := fun _ w =>
    (Return [("auth.api_token"%string, lit "s3cr3t");
             ("export.output_path"%string, lit "out")], w);
  model_dump := fun m => m;
  sanitize_config := List.map redact;
  json_dumps := dumps;
  main_config_menu_loop := fun _ σ w => (Return tt, σ, w)
|}.

End Mock.

(** ** Further vocabulary *)

Section MoreObservations.
Context `{C : Collaborators}.

Definition world_of {A} (res : outcome A * Settings * World * list event)
  : World := res.1.2.

Definition is_measure (ev : event) : bool :=
  match ev with E_measure_enter _ | E_measure_exit => true | _ => false end.

(** The calls of a run: its events without the two of the measured
    scope. *)
Definition calls (t : list event) : list event :=
  List.filter (fun ev => negb (is_measure ev)) t.

(** The constructor call a token is resolved to: the event it leaves,
    still waiting for the result of the call; or the exception [int]
    raises. *)
Definition page_ctor (token : str) : outcome (outcome Page -> event) :=
  if Py.isdigit token
  then match Py.int max_str_digits token with
       | Return n => Return (E_Page_from_id n)
       | Raise e => Raise e
       end
  else Return (E_Page_from_url token).

(** The events of a batch of page tokens, exported with [export], up to
    the first failure: of the resolution of a token, of the constructor or
    of the export. *)
Inductive page_batch_trace (export : Page -> outcome unit -> event)
  : list str -> outcome unit -> list event -> Prop :=
| page_batch_done : page_batch_trace export [] (Return tt) []
| page_batch_resolve_raises token tokens e :
    page_ctor token = Raise e ->
    page_batch_trace export (token :: tokens) (Raise e) []
| page_batch_ctor_raises token tokens ctor e :
    page_ctor token = Return ctor ->
    page_batch_trace export (token :: tokens) (Raise e) [ctor (Raise e)]
| page_batch_export_raises token tokens ctor p e :
    page_ctor token = Return ctor ->
    page_batch_trace export (token :: tokens) (Raise e)
      [ctor (Return p); export p (Raise e)]
| page_batch_next token tokens ctor p r t :
    page_ctor token = Return ctor ->
    page_batch_trace export tokens r t ->
    page_batch_trace export (token :: tokens) r
      (ctor (Return p) :: export p (Return tt) :: t).

(** The values of the decimal digits of a token. *)
Definition digit_values (token : str) : list (option N) :=
  List.map Py.Py_UNICODE_TODECIMAL token.

End MoreObservations.

Section MoreContracts.
Context `{C : Collaborators}.

(** Every event of a computation has the property [P]. *)
Definition always (P : event -> Prop) {A} (m : M A) : Prop :=
  forall σ w, List.Forall P (events_of (m σ w)).

(** What a call of [Page.from_id] in a batch of [tokens] is called with:
    the number of one of the tokens, which [int] reads. *)
Definition from_id_of (tokens : list str) (ev : event) : Prop :=
  match ev with
  | E_Page_from_id n _ =>
      exists token, In token tokens /\ numeric token /\ n = parseInt token
  | _ => True
  end.

End MoreContracts.

Section Splitting.
Context `{C : Collaborators}.

(** A batch command can be split. When the command returns on [xs],
    running it on [ys] afterwards, without the output-path option, ends as
    the one run on [xs ++ ys] does: same outcome, settings and world, and
    the calls of the one run are those of the two runs in a row. When the
    command raises on [xs], it raises the same on [xs ++ ys], in the same
    state and after the same calls. *)
Definition splits {X : Type} (cmd : list X -> option Path -> M unit) : Prop :=
  forall (xs ys : list X) (output_path : option Path) (σ : Settings) (w : World),
    (forall σ1 w1 t1,
        cmd xs output_path σ w = (Return tt, σ1, w1, t1) ->
        outcome_of (cmd (xs ++ ys) output_path σ w)
        = outcome_of (cmd ys None σ1 w1)
        /\ settings_of (cmd (xs ++ ys) output_path σ w)
           = settings_of (cmd ys None σ1 w1)
        /\ world_of (cmd (xs ++ ys) output_path σ w)
           = world_of (cmd ys None σ1 w1)
        /\ calls (events_of (cmd (xs ++ ys) output_path σ w))
           = calls t1 ++ calls (events_of (cmd ys None σ1 w1)))
    /\ (forall e σ1 w1 t1,
           cmd xs output_path σ w = (Raise e, σ1, w1, t1) ->
           outcome_of (cmd (xs ++ ys) output_path σ w) = Raise e
           /\ settings_of (cmd (xs ++ ys) output_path σ w) = σ1
           /\ world_of (cmd (xs ++ ys) output_path σ w) = w1
           /\ calls (events_of (cmd (xs ++ ys) output_path σ w)) = calls t1).

End Splitting.
(** * Properties *)

(** ** Sanity checks of the built-ins against CPython 3.11 *)

Example int_samples :
  List.map (Py.int 4300)
    [lit "123"; lit " 12 "; lit "+12"; lit "-12"; lit "1_2"; lit "_12";
     lit "12_"; lit "1__2"; lit ""; lit " "; lit "+"; lit "+ 1"; [1635; 1636];
     [160; 49; 50; 8195]; [49; 127]; lit "0012"; lit "-0"; lit "12a";
     [1635; 178]; [9; 10; 11; 12; 13; 32; 55]; [65297; 65298]; [28; 49]]
  = [Return 123; Return 12; Return 12; Return (-12); Return 12; Raise ValueError;
     Raise ValueError; Raise ValueError; Raise ValueError; Raise ValueError;
     Raise ValueError; Raise ValueError; Return 34;
     Return 12; Raise ValueError; Return 12; Return 0; Raise ValueError;
     Raise ValueError; Return 7; Return 12; Raise ValueError]%Z.
Proof. vm_compute. reflexivity. Qed.

Example isdigit_samples :
  List.map Py.isdigit [lit "123"; lit ""; lit " "; [178]; [1635]; lit "12a"; lit "-1"]
  = [true; false; false; true; true; false; false].
Proof. reflexivity. Qed.

Example sub_samples :
  (re.sub [re.LITERAL 98] (lit "~") (lit "abcabc") 1 re.IGNORECASE = lit "a~cabc")
  /\ (re.sub [re.LITERAL 98] (lit "~") (lit "abcabc") 0 re.IGNORECASE = lit "a~ca~c")
  /\ (re.sub [] (lit "-") (lit "abc") 0 re.IGNORECASE = lit "-a-b-c-")
  /\ (re.sub [re.AT_BEGINNING] (lit "-") (lit "abc") 0 re.IGNORECASE = lit "-abc")
  /\ (re.sub [re.AT_BEGINNING] (lit "-") [97; 10; 98] 0
        {| re.ignorecase := false; re.multiline := true |} = [45; 97; 10; 45; 98]).
Proof. repeat split; reflexivity. Qed.

Example normalize_samples :
  List.map _normalize_space_key
    [lit "C:\Users\jdoe"; lit "c:\users\jdoe"; lit "PROJ"; lit "xC:\Users\jdoe";
     lit "C:\Users\C:\Users\jdoe"; [0x212a; 58; 92; 85; 0x17f; 101; 114; 0x17f; 92; 120];
     lit "C:\Users\"; lit ""; lit "~jdoe"]
  = [lit "~jdoe"; lit "~jdoe"; lit "PROJ"; lit "xC:\Users\jdoe";
     lit "~C:\Users\jdoe"; lit "~x"; lit "~"; lit ""; lit "~jdoe"].
Proof. vm_compute. reflexivity. Qed.


(** ** The Unicode tables *)

Module PyFacts.
Import Py.

Lemma find_run_spec ch r :
  find_run ch = Some r -> In r unicode_digit_runs /\ in_run ch r = true.
Proof. unfold find_run. apply find_some. Qed.

Lemma find_run_none ch r :
  find_run ch = None -> In r unicode_digit_runs -> in_run ch r = false.
Proof. unfold find_run. intros Hnone Hin. exact (find_none _ _ Hnone r Hin). Qed.

(** A property every record of the digit table has holds for the record
    of any character. *)
Lemma table_property (P : digit_run -> bool) ch r :
  forallb P unicode_digit_runs = true -> find_run ch = Some r -> P r = true.
Proof.
  intros Hall Hfind. apply find_run_spec in Hfind as [Hin _].
  rewrite forallb_forall in Hall. auto.
Qed.

Lemma in_run_bounds ch r :
  in_run ch r = true -> run_lo r <= ch /\ ch <= run_hi r.
Proof. unfold in_run. rewrite andb_true_iff, !N.leb_le. tauto. Qed.

Lemma decimal_is_digit ch d :
  Py_UNICODE_TODECIMAL ch = Some d -> Py_UNICODE_TODIGIT ch = Some d.
Proof.
  unfold Py_UNICODE_TODECIMAL, Py_UNICODE_TODIGIT.
  destruct (find_run ch) as [r|]; [|discriminate].
  destruct (run_decimal r); [tauto | discriminate].
Qed.

Lemma isdecimal_isdigit ch :
  Py_UNICODE_ISDECIMAL ch = true -> Py_UNICODE_ISDIGIT ch = true.
Proof.
  unfold Py_UNICODE_ISDECIMAL, Py_UNICODE_ISDIGIT.
  destruct (Py_UNICODE_TODECIMAL ch) as [d|] eqn:E; [|discriminate].
  now rewrite (decimal_is_digit _ _ E).
Qed.

(** Decimal digits have the values 0 to 9. *)
Lemma decimal_le_9 ch d : Py_UNICODE_TODECIMAL ch = Some d -> d <= 9.
Proof.
  unfold Py_UNICODE_TODECIMAL.
  destruct (find_run ch) as [r|] eqn:E; [|discriminate].
  pose proof (table_property
    (fun r => negb (run_decimal r)
              || (run_value r + (run_hi r - run_lo r) <=? 9)) ch r eq_refl E) as HP.
  apply find_run_spec in E as [_ Hin]. apply in_run_bounds in Hin.
  cbv beta in HP.
  destruct (run_decimal r) eqn:Hd; [|discriminate]. simpl in HP.
  apply N.leb_le in HP. intros [= <-]. lia.
Qed.

(** Below U+007F the only digits are the ASCII digits. *)
Lemma digit_below_127 ch d :
  ch < 127 -> Py_UNICODE_TODIGIT ch = Some d ->
  is_ascii_digit ch = true /\ d = ch - 48.
Proof.
  unfold Py_UNICODE_TODIGIT. intros Hlt.
  destruct (find_run ch) as [r|] eqn:E; [|discriminate].
  pose proof (table_property
    (fun r => (127 <=? run_lo r)
              || ((run_lo r =? 48) && (run_hi r =? 57) && (run_value r =? 0)))
    ch r eq_refl E) as HP.
  cbv beta in HP.
  apply find_run_spec in E as [_ Hin]. apply in_run_bounds in Hin.
  apply orb_true_iff in HP as [HP|HP].
  - apply N.leb_le in HP. lia.
  - rewrite !andb_true_iff, !N.eqb_eq in HP. destruct HP as [[H1 H2] H3].
    intros [= <-]. unfold is_ascii_digit.
    rewrite andb_true_iff, !N.leb_le. lia.
Qed.

Lemma ascii_digit_decimal ch :
  is_ascii_digit ch = true -> Py_UNICODE_TODECIMAL ch = Some (ch - 48).
Proof.
  unfold is_ascii_digit. rewrite andb_true_iff, !N.leb_le. intros [Hlo Hhi].
  unfold Py_UNICODE_TODECIMAL, find_run, unicode_digit_runs.
  cbn [List.find]. unfold in_run at 1. cbn [run_lo run_hi].
  replace (48 <=? ch) with true by (symmetry; now apply N.leb_le).
  replace (ch <=? 57) with true by (symmetry; now apply N.leb_le).
  reflexivity.
Qed.

(** No white-space character is a digit. *)
Lemma space_not_digit ch :
  Py_UNICODE_ISSPACE ch = true -> Py_UNICODE_ISDIGIT ch = false.
Proof.
  unfold Py_UNICODE_ISSPACE, Py_UNICODE_ISDIGIT, Py_UNICODE_TODIGIT.
  intros Hsp. destruct (find_run ch) as [r|] eqn:E; [|reflexivity].
  exfalso.
  apply existsb_exists in Hsp as [[lo hi] [Hin Hb]].
  apply andb_true_iff in Hb as [Hlo Hhi]. apply N.leb_le in Hlo, Hhi.
  simpl in Hlo, Hhi.
  pose proof (table_property
    (fun r => forallb (fun sp => (snd sp <? run_lo r) || (run_hi r <? fst sp))
                      unicode_space_ranges) ch r eq_refl E) as HP.
  cbv beta in HP. rewrite forallb_forall in HP. specialize (HP _ Hin). simpl in HP.
  apply find_run_spec in E as [_ Hr]. apply in_run_bounds in Hr.
  apply orb_true_iff in HP as [HP|HP]; apply N.ltb_lt in HP; lia.
Qed.

End PyFacts.

(** ** [int] on strings of decimal digits *)

Module IntFacts.
Import Py PyFacts.

Lemma isdecimal_value ch :
  Py_UNICODE_ISDECIMAL ch = true ->
  exists d, Py_UNICODE_TODECIMAL ch = Some d /\ d <= 9.
Proof.
  unfold Py_UNICODE_ISDECIMAL.
  destruct (Py_UNICODE_TODECIMAL ch) as [d|] eqn:E; [|discriminate].
  intros _. exists d. split; [reflexivity|]. now apply decimal_le_9 with ch.
Qed.

(** A decimal digit is transformed into its ASCII digit. *)
Lemma transform_cons_decimal ch d s :
  Py_UNICODE_TODECIMAL ch = Some d ->
  _PyUnicode_TransformDecimalAndSpaceToASCII (ch :: s)
  = (48 + d) :: _PyUnicode_TransformDecimalAndSpaceToASCII s.
Proof.
  intros Hd. cbn [_PyUnicode_TransformDecimalAndSpaceToASCII].
  destruct (ch <? 127) eqn:Hlt.
  - apply N.ltb_lt in Hlt.
    destruct (digit_below_127 ch d Hlt (decimal_is_digit _ _ Hd)) as [Ha ->].
    unfold is_ascii_digit in Ha. rewrite andb_true_iff, !N.leb_le in Ha.
    f_equal. lia.
  - destruct (Py_UNICODE_ISSPACE ch) eqn:Hsp.
    + apply space_not_digit in Hsp. unfold Py_UNICODE_ISDIGIT in Hsp.
      now rewrite (decimal_is_digit _ _ Hd) in Hsp.
    + now rewrite Hd.
Qed.

Lemma ascii_digit_cases c :
  is_ascii_digit c = true ->
  c = 48 \/ c = 49 \/ c = 50 \/ c = 51 \/ c = 52 \/ c = 53 \/ c = 54
  \/ c = 55 \/ c = 56 \/ c = 57.
Proof.
  unfold is_ascii_digit. rewrite andb_true_iff, !N.leb_le. lia.
Qed.

Lemma ascii_digit_of_value d : d <= 9 -> is_ascii_digit (48 + d) = true.
Proof.
  intros. unfold is_ascii_digit. rewrite andb_true_iff, !N.leb_le. lia.
Qed.

Lemma ascii_digit_not_underscore c :
  is_ascii_digit c = true -> (c =? 95) = false.
Proof.
  unfold is_ascii_digit. rewrite andb_true_iff, !N.leb_le, N.eqb_neq. lia.
Qed.

(** The scan consumes a transformed string of decimal digits whole. *)
Lemma scan_decimal s :
  all_decimal s ->
  forall prev n acc, (prev =? 95) = false ->
  exists prev',
    scan_digits prev n acc (_PyUnicode_TransformDecimalAndSpaceToASCII s)
    = Some (prev', (n + length s)%nat,
            fold_left (fun a ch =>
              (10 * a + Z.of_N (default 0%N (Py_UNICODE_TODECIMAL ch)))%Z) s acc,
            [])
    /\ (prev' =? 95) = false.
Proof.
  induction 1 as [|ch s Hch Hs IH]; intros prev n acc Hprev.
  - exists prev. split; [|assumption]. cbn. now rewrite Nat.add_0_r.
  - destruct (isdecimal_value ch Hch) as (d & Hd & Hle).
    rewrite (transform_cons_decimal _ _ _ Hd). cbn [scan_digits].
    rewrite (ascii_digit_of_value d Hle).
    destruct (IH (48 + d) (S n) (10 * acc + Z.of_N (48 + d - 48))%Z
                (ascii_digit_not_underscore _ (ascii_digit_of_value d Hle)))
      as (prev' & Hscan & Hp').
    exists prev'. split; [|assumption]. rewrite Hscan.
    cbn [fold_left length]. rewrite Hd. cbn [default].
    replace (48 + d - 48) with d by lia.
    now rewrite Nat.add_succ_r.
Qed.

(** [int] on a non-empty string of decimal digits within the length limit
    is the number the digits denote. *)
Lemma int_decimal max s :
  s <> [] -> all_decimal s -> exceeds_limit max (length s) = false ->
  int max s = Return (parseInt s).
Proof.
  intros Hne Hall Hlim. destruct s as [|ch s]; [congruence|].
  pose proof Hall as Hall'. inversion Hall' as [|? ? Hch Hs]; subst.
  destruct (isdecimal_value ch Hch) as (d & Hd & Hle).
  destruct (scan_decimal (ch :: s) Hall 0 0%nat 0%Z eq_refl)
    as (prev' & Hscan & Hp').
  unfold int, PyLong_FromString.
  rewrite (transform_cons_decimal _ _ _ Hd) in *.
  set (rest := _PyUnicode_TransformDecimalAndSpaceToASCII s) in *.
  assert (Hfirst : is_ascii_digit (48 + d) = true)
    by now apply ascii_digit_of_value.
  destruct (ascii_digit_cases _ Hfirst) as
    [E|[E|[E|[E|[E|[E|[E|[E|[E|E]]]]]]]]]; rewrite E in *;
    cbn [skip_spaces Py_ISSPACE N.eqb N.leb N.compare Pos.eqb Pos.compare
         Pos.compare_cont orb andb];
    rewrite Hscan, Hp'; cbn [Nat.add] in Hlim |- *; rewrite Hlim;
    cbn [Nat.eqb skip_spaces]; unfold parseInt; f_equal;
    now destruct (fold_left _ _ _).
Qed.

Lemma ascii_digits_decimal s : all_ascii_digits s -> all_decimal s.
Proof.
  apply List.Forall_impl. intros ch H. unfold Py_UNICODE_ISDECIMAL.
  now rewrite (ascii_digit_decimal ch H).
Qed.

(** On ASCII digits [parseInt] reads the digits [ch - 48]. *)
Lemma parseInt_ascii s :
  all_ascii_digits s ->
  parseInt s = fold_left (fun a ch => (10 * a + Z.of_N (ch - 48))%Z) s 0%Z.
Proof.
  unfold parseInt. generalize 0%Z.
  induction s as [|ch s IH]; intros acc Hall; [reflexivity|].
  inversion Hall as [|? ? Hch Hs]; subst. cbn [fold_left].
  rewrite (ascii_digit_decimal ch Hch). cbn [default]. now apply IH.
Qed.

Lemma isdigit_decimal s : s <> [] -> all_decimal s -> isdigit s = true.
Proof.
  intros Hne Hall. destruct s as [|ch s]; [congruence|].
  unfold isdigit. apply forallb_forall. intros c Hc.
  apply isdecimal_isdigit. unfold all_decimal in Hall.
  rewrite List.Forall_forall in Hall. auto.
Qed.

Lemma isdigit_non_digit s : s = [] \/ has_non_digit s -> isdigit s = false.
Proof.
  intros [->|Hex]; [reflexivity|].
  destruct s as [|ch s]; [reflexivity|].
  unfold isdigit. apply not_true_is_false. intros Hall.
  rewrite forallb_forall in Hall.
  apply List.Exists_exists in Hex as (c & Hin & Hc).
  rewrite (Hall c Hin) in Hc. discriminate.
Qed.


End IntFacts.

(** ** The command monad *)

Section MonadFacts.
Context `{C : Collaborators}.

Lemma bind_ret_l {A B} (a : A) (k : A -> M B) σ w :
  bind (ret a) k σ w = k a σ w.
Proof. unfold bind, ret. now destruct (k a σ w) as [[[r σ2] w2] t2]. Qed.

Lemma bind_raise {A B} (e : exn) (k : A -> M B) σ w :
  bind (raise e) k σ w = (Raise e, σ, w, []).
Proof. reflexivity. Qed.

(** How [bind] runs when the first computation returns, and when it
    raises. *)
Lemma bind_return {A B} (m : M A) (k : A -> M B) σ w a σ1 w1 t1 :
  m σ w = (Return a, σ1, w1, t1) ->
  bind m k σ w
  = (outcome_of (k a σ1 w1), settings_of (k a σ1 w1), (k a σ1 w1).1.2,
     t1 ++ events_of (k a σ1 w1)).
Proof.
  intros Hm. unfold bind. rewrite Hm.
  now destruct (k a σ1 w1) as [[[r σ2] w2] t2].
Qed.

Lemma bind_raises {A B} (m : M A) (k : A -> M B) σ w e σ1 w1 t1 :
  m σ w = (Raise e, σ1, w1, t1) -> bind m k σ w = (Raise e, σ1, w1, t1).
Proof. intros Hm. unfold bind. now rewrite Hm. Qed.

End MonadFacts.

(** ** Identifier resolution *)

Section Resolution.
Context `{C : Collaborators}.
Import Py PyFacts IntFacts.

Lemma _page_digits token σ w :
  token <> [] -> all_decimal token ->
  exceeds_limit max_str_digits (length token) = false ->
  _page token σ w
  = call (E_Page_from_id (parseInt token)) (Page_from_id (parseInt token)) σ w.
Proof.
  intros Hne Hall Hlim. unfold _page.
  rewrite (isdigit_decimal _ Hne Hall), (int_decimal _ _ Hne Hall Hlim).
  cbn [lift].
  exact (bind_ret_l (parseInt token)
           (fun n => call (E_Page_from_id n) (Page_from_id n)) σ w).
Qed.

Lemma _page_url token σ w :
  isdigit token = false ->
  _page token σ w = call (E_Page_from_url token) (Page_from_url token) σ w.
Proof. intros H. unfold _page. now rewrite H. Qed.

(** C1, amended. A token that is not empty, made of decimal digits only
    (the ASCII digits and the other Unicode decimal digits) and within the
    interpreter's length limit for integer strings is resolved to the
    numeric identifier it denotes: [Page.from_id] is called with that
    integer. A token that is empty or has a character [str.isdigit] rejects
    is resolved to a URL: [Page.from_url] is called with the token
    unchanged. On ASCII digits the integer is the usual base-10 reading. *)
Theorem resolution_by_digit_class (token : str) (σ : Settings) (w : World) :
  (token <> [] -> all_decimal token ->
   exceeds_limit max_str_digits (length token) = false ->
   _page token σ w
   = call (E_Page_from_id (parseInt token)) (Page_from_id (parseInt token)) σ w)
  /\ (token = [] \/ has_non_digit token ->
      _page token σ w = call (E_Page_from_url token) (Page_from_url token) σ w)
  /\ (all_ascii_digits token ->
      all_decimal token
      /\ parseInt token
         = fold_left (fun a ch => (10 * a + Z.of_N (ch - 48))%Z) token 0%Z).
Proof.
  split; [|split].
  - apply _page_digits.
  - intros H. apply _page_url. now apply isdigit_non_digit.
  - intros H. split; [now apply ascii_digits_decimal | now apply parseInt_ascii].
Qed.

(** C4, the failing input. On the token [²] (U+00B2, SUPERSCRIPT TWO)
    [str.isdigit] answers true, so [int] is called, and [int] raises
    [ValueError]: resolution fails before any constructor is called. *)
Theorem resolution_raises_on_superscript_two (σ : Settings) (w : World) :
  isdigit [0xb2] = true
  /\ _page [0xb2] σ w = (Raise ValueError, σ, w, []).
Proof. split; reflexivity. Qed.


End Resolution.

(** ** The output-path override *)

Section Override.
Context `{C : Collaborators}.

Lemma wns_ret {A} (a : A) : writes_no_setting (ret a).
Proof. intros σ w. split; [reflexivity | constructor]. Qed.

Lemma wns_lift {A} (r : outcome A) : writes_no_setting (lift r).
Proof. intros σ w. destruct r; (split; [reflexivity | constructor]). Qed.

Lemma wns_call {A} (ev : outcome A -> event) (f : ext World A) :
  (forall r, is_set_setting (ev r) = false) -> writes_no_setting (call ev f).
Proof.
  intros Hev σ w. unfold call, settings_of, events_of.
  destruct (f σ w) as [r w']. cbn. split; [reflexivity|].
  constructor; [apply Hev | constructor].
Qed.

Lemma wns_bind {A B} (m : M A) (k : A -> M B) :
  writes_no_setting m -> (forall a, writes_no_setting (k a)) ->
  writes_no_setting (bind m k).
Proof.
  intros Hm Hk σ w. unfold bind, settings_of, events_of.
  destruct (Hm σ w) as [Hs Ht]. unfold settings_of, events_of in Hs, Ht.
  destruct (m σ w) as [[[[a|e] σ1] w1] t1]; cbn in *; subst σ1.
  - destruct (Hk a σ w1) as [Hs' Ht']. unfold settings_of, events_of in Hs', Ht'.
    destruct (k a σ w1) as [[[r σ2] w2] t2]; cbn in *.
    split; [assumption|]. apply List.Forall_app. now split.
  - now split.
Qed.

Lemma wns_for_each {A} (xs : list A) (body : A -> M unit) :
  (forall x, writes_no_setting (body x)) -> writes_no_setting (for_each xs body).
Proof.
  intros Hb. induction xs as [|x xs IH]; cbn [for_each].
  - apply wns_ret.
  - apply wns_bind; [apply Hb | intros _; exact IH].
Qed.

Lemma wns__page page : writes_no_setting (_page page).
Proof.
  unfold _page. destruct (Py.isdigit page).
  - apply wns_bind; [apply wns_lift | intros n; now apply wns_call].
  - now apply wns_call.
Qed.

Lemma wns_pages_body page : writes_no_setting (pages_body page).
Proof.
  apply wns_bind; [apply wns__page | intros p; now apply wns_call].
Qed.

Lemma wns_pages_with_descendants_body page :
  writes_no_setting (pages_with_descendants_body page).
Proof.
  apply wns_bind; [apply wns__page | intros p; now apply wns_call].
Qed.

Lemma wns_spaces_body key : writes_no_setting (spaces_body key).
Proof.
  apply wns_bind; [now apply wns_call | intros s; now apply wns_call].
Qed.

(** Every command has the shape [measure step (override >> body)]; the
    contract follows when the body writes no setting. *)
Lemma override_contract_measure (step : str) (body : M unit) :
  writes_no_setting body ->
  override_contract (fun output_path =>
    measure step (override_output_path_config output_path >> body)).
Proof.
  intros Hb [p|] σ w.
  - unfold measure, bind, override_output_path_config, set_setting,
      settings_of, events_of, outcome_of.
    destruct (set_setting_validate "export.output_path" (VPath p) σ w)
      as [[[]|e] w'].
    + destruct (Hb (<["export.output_path"%string := VPath p]> σ) w')
        as [Hs Ht]. unfold settings_of, events_of in Hs, Ht.
      destruct (body _ w') as [[[r σ2] w2] t2]. cbn in *.
      exists step, (Return tt), (t2 ++ [E_measure_exit]).
      split; [reflexivity|]. split; [|assumption].
      apply List.Forall_app. split; [assumption|]. now constructor.
    + cbn. exists step, (Raise e), [E_measure_exit].
      split; [reflexivity|]. split; [now constructor | auto].
  - unfold measure, bind, override_output_path_config, ret,
      settings_of, events_of.
    destruct (Hb σ w) as [Hs Ht]. unfold settings_of, events_of in Hs, Ht.
    destruct (body σ w) as [[[r σ2] w2] t2]. cbn in *.
    split; [assumption|]. constructor; [reflexivity|].
    apply List.Forall_app. split; [assumption|]. now constructor.
Qed.

(** C7. For each of the four export commands: without an output path no
    setting is written and the settings are unchanged; with one, the
    output-path setting is written once, first inside the measured scope
    and so before every construction and export, no other write follows,
    and the value is still in the settings when the command ends. *)
Theorem output_path_override (tokens keys : list str) :
  override_contract (pages tokens)
  /\ override_contract (pages_with_descendants tokens)
  /\ override_contract (spaces keys)
  /\ override_contract all_spaces.
Proof.
  repeat split.
  - apply (override_contract_measure (pages_step tokens)
             (for_each tokens pages_body)).
    apply wns_for_each, wns_pages_body.
  - apply (override_contract_measure (pages_with_descendants_step tokens)
             (for_each tokens pages_with_descendants_body)).
    apply wns_for_each, wns_pages_with_descendants_body.
  - apply (override_contract_measure (spaces_step keys)
             (for_each (List.map _normalize_space_key keys) spaces_body)).
    apply wns_for_each, wns_spaces_body.
  - apply (override_contract_measure (lit "Export all spaces")
             (let! org := call E_Organization_from_api Organization_from_api in
              call (E_Organization_export org) (Organization_export org))).
    apply wns_bind; [now apply wns_call | intros o; now apply wns_call].
Qed.

End Override.

(** ** Fail-fast batches *)

Section FailFast.
Context `{C : Collaborators}.

Lemma for_each_raise {Y} (body : Y -> M unit) pre y post σ w σ1 w1 t1 e σ2 w2 t2 :
  for_each pre body σ w = (Return tt, σ1, w1, t1) ->
  body y σ1 w1 = (Raise e, σ2, w2, t2) ->
  for_each (pre ++ y :: post) body σ w = (Raise e, σ2, w2, t1 ++ t2).
Proof.
  revert σ w t1. induction pre as [|a pre IH]; intros σ w t1 Hpre Hy.
  - cbn in Hpre. injection Hpre as <- <- <-.
    cbn [app for_each]. unfold bind. now rewrite Hy.
  - cbn [app for_each] in *. unfold bind in *.
    destruct (body a σ w) as [[[[[]|ea] σa] wa] ta]; [|discriminate].
    destruct (for_each pre body σa wa) as [[[ra σb] wb] tb] eqn:Hrest.
    injection Hpre as -> -> -> <-.
    rewrite (IH σa wa tb Hrest Hy). now rewrite app_assoc.
Qed.

Lemma for_each_count {Y} (body : Y -> M unit) ys σ w σ1 w1 t1 :
  one_export body ->
  for_each ys body σ w = (Return tt, σ1, w1, t1) ->
  length (List.filter is_export_done t1) = length ys.
Proof.
  intros Hone. revert σ w t1.
  induction ys as [|a ys IH]; intros σ w t1 Hrun.
  - cbn in Hrun. now injection Hrun as <- <- <-.
  - cbn [for_each] in Hrun. unfold bind in Hrun.
    pose proof (Hone a σ w) as Ha. unfold outcome_of, events_of in Ha.
    destruct (body a σ w) as [[[[[]|ea] σa] wa] ta]; [|discriminate].
    destruct (for_each ys body σa wa) as [[[ra σb] wb] tb] eqn:Hrest.
    injection Hrun as -> -> -> <-. cbn in Ha.
    rewrite List.filter_app, List.length_app, Ha, (IH _ _ _ Hrest).
    reflexivity.
Qed.

Lemma override_no_export v σ w :
  List.filter is_export_done
    (events_of (override_output_path_config v σ w)) = [].
Proof.
  destruct v as [p|]; [|reflexivity].
  unfold override_output_path_config, set_setting, events_of.
  now destruct (set_setting_validate _ _ σ w) as [[[]|e] w'].
Qed.

Lemma fail_fast_measure {X Y} (step : list X -> str) (prep : X -> Y)
    (body : Y -> M unit) :
  one_export body ->
  fail_fast (fun xs output_path =>
               measure (step xs)
                 (override_output_path_config output_path >>
                  for_each (List.map prep xs) body))
            step prep body.
Proof.
  intros Hone pre x post v σ w σ1 w1 t1 e σ2 w2 t2 Hpre Hx.
  unfold bind in Hpre.
  pose proof (override_no_export v σ w) as Hov. unfold events_of in Hov.
  destruct (override_output_path_config v σ w)
    as [[[[[]|e0] σ0] w0] t0] eqn:Hv; [|discriminate].
  destruct (for_each (List.map prep pre) body σ0 w0)
    as [[[r σa] wa] ta] eqn:Hloop.
  injection Hpre as -> -> -> <-. cbn in Hov.
  split; [|split].
  - unfold measure, bind. rewrite Hv, List.map_app. cbn [List.map].
    rewrite (for_each_raise body _ _ _ _ _ _ _ _ _ _ _ _ Hloop Hx).
    now rewrite <- !app_assoc.
  - rewrite List.filter_app, List.length_app, Hov.
    rewrite (for_each_count body _ _ _ _ _ _ Hone Hloop).
    now rewrite List.length_map.
  - pose proof (Hone (prep x) σ1 w1) as Hy.
    unfold outcome_of, events_of in Hy. now rewrite Hx in Hy.
Qed.

Lemma _page_no_export page σ w :
  List.filter is_export_done (events_of (_page page σ w)) = [].
Proof.
  unfold _page, events_of. destruct (Py.isdigit page).
  - destruct (Py.int max_str_digits page) as [n|e]; [|reflexivity].
    cbn [lift]. rewrite bind_ret_l. unfold call.
    now destruct (Page_from_id n σ w).
  - unfold call. now destruct (Page_from_url page σ w).
Qed.

Lemma one_export_pages_body : one_export pages_body.
Proof.
  intros page σ w. unfold pages_body, bind, outcome_of, events_of.
  pose proof (_page_no_export page σ w) as Hp. unfold events_of in Hp.
  destruct (_page page σ w) as [[[[p|e] σ1] w1] t1]; cbn in *; [|assumption].
  unfold call. destruct (Page_export p σ1 w1) as [[[]|e] w2]; cbn;
    rewrite List.filter_app, Hp; reflexivity.
Qed.

Lemma one_export_pages_with_descendants_body :
  one_export pages_with_descendants_body.
Proof.
  intros page σ w.
  unfold pages_with_descendants_body, bind, outcome_of, events_of.
  pose proof (_page_no_export page σ w) as Hp. unfold events_of in Hp.
  destruct (_page page σ w) as [[[[p|e] σ1] w1] t1]; cbn in *; [|assumption].
  unfold call. destruct (Page_export_with_descendants p σ1 w1) as [[[]|e] w2];
    cbn; rewrite List.filter_app, Hp; reflexivity.
Qed.

Lemma one_export_spaces_body : one_export spaces_body.
Proof.
  intros key σ w. unfold spaces_body, bind, call, outcome_of, events_of.
  destruct (Space_from_key key σ w) as [[s|e] w1]; cbn; [|reflexivity].
  now destruct (Space_export s σ w1) as [[[]|e] w2].
Qed.

Lemma all_spaces_is_fail_fast : all_spaces_fail_fast.
Proof.
  intros v σ w σ1 w1 t1 Hv. split.
  - intros e w2 Hapi. unfold all_spaces, measure, bind, call.
    rewrite Hv, Hapi. now rewrite <- app_assoc.
  - intros org w2 e w3 Hapi Hexp. unfold all_spaces, measure, bind, call.
    rewrite Hv, Hapi, Hexp. now rewrite <- app_assoc.
Qed.

(** C5. None of the four export commands catches an exception. In a
    batch, when the body of the loop raises on the k-th identifier (in
    its construction or in its export), the command raises that same
    exception, one export was performed for each of the k-1 identifiers
    before it, and nothing is constructed or exported for the identifiers
    after it; [all_spaces] raises what [Organization.from_api] or the
    export of the organization raises. *)
Theorem commands_fail_fast :
  fail_fast pages pages_step (fun page => page) pages_body
  /\ fail_fast pages_with_descendants pages_with_descendants_step
       (fun page => page) pages_with_descendants_body
  /\ fail_fast spaces spaces_step _normalize_space_key spaces_body
  /\ all_spaces_fail_fast.
Proof.
  split; [|split; [|split]].
  - intros pre x post v σ w σ1 w1 t1 e σ2 w2 t2 Hpre Hx.
    pose proof (fail_fast_measure pages_step (fun page => page) pages_body
                  one_export_pages_body pre x post v σ w σ1 w1 t1 e σ2 w2 t2
                  Hpre Hx) as H.
    cbv beta in H. rewrite !List.map_id in H. exact H.
  - intros pre x post v σ w σ1 w1 t1 e σ2 w2 t2 Hpre Hx.
    pose proof (fail_fast_measure pages_with_descendants_step
                  (fun page => page) pages_with_descendants_body
                  one_export_pages_with_descendants_body
                  pre x post v σ w σ1 w1 t1 e σ2 w2 t2 Hpre Hx) as H.
    cbv beta in H. rewrite !List.map_id in H. exact H.
  - exact (fail_fast_measure spaces_step _normalize_space_key spaces_body
             one_export_spaces_body).
  - exact all_spaces_is_fail_fast.
Qed.

End FailFast.

(** ** The shape of a batch *)

Section Batches.
Context `{C : Collaborators}.

Lemma for_each_ext {A} (f g : A -> M unit) xs :
  (forall x, In x xs -> forall σ w, f x σ w = g x σ w) ->
  forall σ w, for_each xs f σ w = for_each xs g σ w.
Proof.
  induction xs as [|x xs IH]; intros Hfg σ w; [reflexivity|].
  cbn [for_each]. unfold bind. rewrite (Hfg x (or_introl eq_refl)).
  destruct (g x σ w) as [[[[[]|e] σ1] w1] t1]; [|reflexivity].
  rewrite IH; [reflexivity|]. intros y Hy. apply Hfg. now right.
Qed.

Lemma for_each_map {A B} (h : A -> B) (g : B -> M unit) xs σ w :
  for_each (List.map h xs) g σ w = for_each xs (fun x => g (h x)) σ w.
Proof.
  revert σ w. induction xs as [|x xs IH]; intros σ w; [reflexivity|].
  cbn [List.map for_each]. unfold bind.
  destruct (g (h x) σ w) as [[[[[]|e] σ1] w1] t1]; [|reflexivity].
  now rewrite IH.
Qed.

(** A loop that constructs an object from each item and exports it leaves
    a batch trace, and does not touch the settings. *)
Lemma for_each_batch {X Obj} (ctor : X -> outcome Obj -> event)
    (export : Obj -> outcome unit -> event)
    (mk : X -> ext World Obj) (ex : Obj -> ext World unit) xs σ w :
  let res := for_each xs (fun x => let! o := call (ctor x) (mk x) in
                                   call (export o) (ex o)) σ w in
  batch_trace ctor export xs (outcome_of res) (events_of res).
Proof.
  cbn zeta.
  set (body := fun x => let! o := call (ctor x) (mk x) in call (export o) (ex o)).
  assert (Hbody : forall x σ w,
             body x σ w
             = match mk x σ w with
               | (Return o, w1) =>
                   match ex o σ w1 with
                   | (r, w2) => (r, σ, w2, [ctor x (Return o); export o r])
                   end
               | (Raise e, w1) => (Raise e, σ, w1, [ctor x (Raise e)])
               end).
  { intros x σ' w'. unfold body, bind, call.
    destruct (mk x σ' w') as [[o|e] w1]; [|reflexivity].
    now destruct (ex o σ' w1) as [r w2]. }
  clearbody body. revert σ w.
  induction xs as [|x xs IH]; intros σ w.
  - constructor.
  - cbn [for_each]. unfold bind. rewrite Hbody.
    destruct (mk x σ w) as [[o|e] w1]; [|constructor].
    destruct (ex o σ w1) as [[[]|e] w2]; [|constructor].
    specialize (IH σ w2). unfold outcome_of, events_of in *.
    destruct (for_each xs body σ w2) as [[[r σ3] w3] t3]. cbn in *.
    now constructor.
Qed.

Lemma batch_trace_return {X Obj} (ctor : X -> outcome Obj -> event)
    (export : Obj -> outcome unit -> event) xs r t :
  batch_trace ctor export xs r t -> r = Return tt ->
  exists objs, length objs = length xs
               /\ t = batch_events ctor export (zip xs objs).
Proof.
  induction 1 as [| | |x xs o r t Hrest IH]; intros Hr; try discriminate.
  - exists []. now split.
  - destruct (IH Hr) as (objs & Hlen & ->).
    exists (o :: objs). split; [cbn; now rewrite Hlen | reflexivity].
Qed.

Lemma batch_trace_from_key_args ks r t :
  batch_trace E_Space_from_key E_Space_export ks r t ->
  from_key_args t `prefix_of` ks.
Proof.
  induction 1 as [| x xs e | x xs o e |x xs o r t Hrest IH]; cbn.
  - reflexivity.
  - now exists xs.
  - now exists xs.
  - now apply prefix_cons.
Qed.

Lemma batch_trace_no_set_setting {X Obj} (ctor : X -> outcome Obj -> event)
    (export : Obj -> outcome unit -> event) xs r t :
  (forall x r, is_set_setting (ctor x r) = false) ->
  (forall o r, is_set_setting (export o r) = false) ->
  batch_trace ctor export xs r t ->
  List.Forall (fun ev => is_set_setting ev = false) t.
Proof.
  intros Hc He. induction 1; repeat constructor; auto.
Qed.

(** On tokens that [int] reads, the loop of [pages] is the loop over
    their numbers that calls [Page.from_id]. *)
Lemma pages_loop_numeric tokens σ w :
  List.Forall numeric tokens ->
  for_each tokens pages_body σ w
  = for_each (List.map parseInt tokens)
      (fun n => let! p := call (E_Page_from_id n) (Page_from_id n) in
                call (E_Page_export p) (Page_export p)) σ w.
Proof.
  intros Hall. rewrite for_each_map. apply for_each_ext.
  intros token Hin σ' w'. rewrite List.Forall_forall in Hall.
  destruct (Hall token Hin) as (Hne & Hdec & Hlim).
  unfold pages_body, bind. now rewrite (_page_digits token σ' w' Hne Hdec Hlim).
Qed.

End Batches.

Section BatchCommands.
Context `{C : Collaborators}.

Lemma override_from_key_args v σ w :
  from_key_args (events_of (override_output_path_config v σ w)) = [].
Proof.
  destruct v as [p|]; [|reflexivity].
  unfold override_output_path_config, set_setting, events_of.
  now destruct (set_setting_validate _ _ σ w) as [[[]|e] w'].
Qed.

(** C6. [spaces] normalises every key first; [Space.from_key] is called
    with normalised keys only, in input order, and the space it returns is
    exported at once, one export for each: the calls of the entity layer
    form a batch trace over the normalised keys, complete when the command
    returns. *)
Theorem spaces_normalizes_then_exports (space_keys : list str)
    (output_path : option Path) (σ : Settings) (w : World) :
  let normalized := List.map _normalize_space_key space_keys in
  let ov := override_output_path_config output_path σ w in
  let res := spaces space_keys output_path σ w in
  from_key_args (events_of res) `prefix_of` normalized
  /\ exists t,
      events_of res
      = E_measure_enter (lit "Export spaces " ++ Py.join (lit ", ") normalized)
        :: events_of ov ++ t ++ [E_measure_exit]
      /\ (outcome_of ov = Return tt ->
          batch_trace E_Space_from_key E_Space_export normalized
            (outcome_of res) t)
      /\ (outcome_of res = Return tt ->
          exists sps, length sps = length space_keys
                      /\ t = batch_events E_Space_from_key E_Space_export
                               (zip normalized sps)).
Proof.
  cbn zeta. unfold spaces, measure, bind.
  pose proof (override_from_key_args output_path σ w) as Hov.
  unfold events_of, outcome_of in *.
  destruct (override_output_path_config output_path σ w)
    as [[[[[]|e0] σ0] w0] t0]; cbn in Hov |- *.
  - pose proof (for_each_batch E_Space_from_key E_Space_export
                  Space_from_key Space_export
                  (List.map _normalize_space_key space_keys) σ0 w0) as Hb.
    cbn zeta in Hb. unfold events_of, outcome_of in Hb.
    destruct (for_each _ _ σ0 w0) as [[[r σ3] w3] t3]. cbn in Hb |- *.
    split.
    + unfold from_key_args in *. rewrite !omap_app, Hov. cbn.
      rewrite app_nil_r. now apply batch_trace_from_key_args with r.
    + exists t3. split; [now rewrite <- app_assoc|]. split; [auto|].
      intros Hr.
      destruct (batch_trace_return _ _ _ _ _ Hb Hr) as (sps & Hlen & Ht).
      exists sps. split; [now rewrite Hlen, List.length_map | exact Ht].
  - split.
    + unfold from_key_args in *. rewrite omap_app, Hov. cbn.
      apply prefix_nil.
    + exists []. split; [reflexivity|]. split; discriminate.
Qed.

(** C2. [pages] with an output path and the tokens [123] and [456]: the
    setting is written first and once; then the calls of the entity layer
    form a batch trace over the identifiers 123 and 456, that is
    [Page.from_id] is called with 123 and then with 456, and each page is
    exported at once after its construction; when the command returns the
    trace is the complete one. *)
Theorem pages_123_456 (output_path : Path) (σ : Settings) (w : World) :
  let res := pages [lit "123"; lit "456"] (Some output_path) σ w in
  exists r0 t,
    events_of res
    = [E_measure_enter (lit "Export pages 123, 456");
       E_set_setting "export.output_path" (VPath output_path) r0]
      ++ t ++ [E_measure_exit]
    /\ List.Forall (fun ev => is_set_setting ev = false) t
    /\ match r0 with
       | Return _ =>
           batch_trace E_Page_from_id E_Page_export [123; 456]%Z
             (outcome_of res) t
       | Raise e => t = [] /\ outcome_of res = Raise e
       end
    /\ (outcome_of res = Return tt ->
        exists p1 p2,
          r0 = Return tt
          /\ t = [E_Page_from_id 123 (Return p1); E_Page_export p1 (Return tt);
                  E_Page_from_id 456 (Return p2); E_Page_export p2 (Return tt)]).
Proof.
  cbn zeta.
  unfold pages, measure, bind, override_output_path_config, set_setting,
    events_of, outcome_of.
  destruct (set_setting_validate "export.output_path" (VPath output_path) σ w)
    as [[[]|e] w0].
  - set (σ0 := <["export.output_path"%string := VPath output_path]> σ).
    change (for_each [lit "123"; lit "456"] _ σ0 w0)
      with (for_each [lit "123"; lit "456"] pages_body σ0 w0).
    rewrite (pages_loop_numeric [lit "123"; lit "456"] σ0 w0)
      by (repeat first [apply List.Forall_cons | apply List.Forall_nil];
          (split; [discriminate | split; [|reflexivity]]);
          repeat first [apply List.Forall_cons; [reflexivity|]
                       | apply List.Forall_nil]).
    change (List.map parseInt [lit "123"; lit "456"]) with [123; 456]%Z.
    pose proof (for_each_batch E_Page_from_id E_Page_export
                  Page_from_id Page_export [123; 456]%Z σ0 w0) as Hb.
    cbn zeta in Hb. unfold events_of, outcome_of in Hb.
    destruct (for_each _ _ σ0 w0) as [[[r σ3] w3] t3]. cbn in Hb |- *.
    exists (Return tt), t3. split; [reflexivity|].
    split; [now apply (batch_trace_no_set_setting
                         E_Page_from_id E_Page_export _ _ _
                         (fun _ _ => eq_refl) (fun _ _ => eq_refl) Hb)|].
    split; [exact Hb|]. intros Hr.
    destruct (batch_trace_return _ _ _ _ _ Hb Hr) as (objs & Hlen & Ht).
    destruct objs as [|p1 [|p2 [|]]]; try discriminate.
    now exists p1, p2.
  - cbn. exists (Raise e), []. split; [reflexivity|].
    split; [constructor|]. split; [now split | discriminate].
Qed.

End BatchCommands.

(** ** Space-key normalisation *)

Module ReFacts.
Import re.

Lemma mem_In x l : mem x l = true <-> In x l.
Proof.
  unfold mem. rewrite existsb_exists. split.
  - intros (y & Hin & Heq). apply N.eqb_eq in Heq. now subst.
  - intros Hin. exists x. split; [assumption | apply N.eqb_refl].
Qed.

(** Two boolean tests agree when they hold for the same characters. *)
Lemma bool_ext (a b : bool) : (a = true <-> b = true) -> a = b.
Proof. destruct a, b; intuition congruence. Qed.

Ltac to_arith :=
  unfold drive_letter, letter_s; unfold letter;
  rewrite ?mem_In; cbn [In];
  rewrite ?orb_true_iff, ?andb_true_iff, ?N.eqb_eq, ?N.leb_le.

(** The lowercase of a character, by cases. *)
Lemma unicode_tolower_cases ch :
  (65 <= ch <= 90 /\ unicode_tolower ch = ch + 32)
  \/ (ch = 0x130 /\ unicode_tolower ch = 0x69)
  \/ (ch = 0x212a /\ unicode_tolower ch = 0x6b)
  \/ (~ 65 <= ch <= 90 /\ ch <> 0x130 /\ ch <> 0x212a
      /\ unicode_tolower ch = ch).
Proof.
  unfold unicode_tolower.
  destruct (N.leb_spec 65 ch), (N.leb_spec ch 90); cbn [andb];
    try (left; split; [lia | reflexivity]);
    destruct (N.eqb_spec ch 0x130); try (right; left; now split);
    destruct (N.eqb_spec ch 0x212a); try (right; right; left; now split);
    right; right; right; repeat split; try assumption; lia.
Qed.

Lemma in_matches_drive_letter ch :
  in_matches IGNORECASE [RANGE 65 90] ch = drive_letter ch.
Proof.
  apply bool_ext. unfold in_matches.
  change (ignorecase IGNORECASE
          && existsb unicode_iscased (members [RANGE 65 90])) with true.
  cbv iota.
  let l := eval vm_compute in (flat_map folded (members [RANGE 65 90])) in
  change (flat_map folded (members [RANGE 65 90])) with l.
  to_arith.
  destruct (unicode_tolower_cases ch)
    as [[H ->]|[[-> ->]|[[-> ->]|(H1 & H2 & H3 & ->)]]]; lia.
Qed.

Lemma literal_matches_letter lo c ch :
  97 <= lo <= 122 -> lo <> 0x69 -> lo <> 0x6b -> lo <> 0x73 ->
  c = lo \/ c = lo - 32 ->
  literal_matches IGNORECASE c ch = letter lo ch.
Proof.
  intros Hlo Hi Hk Hs Hc. apply bool_ext. unfold literal_matches, folded.
  assert (Hcased : unicode_iscased c = true).
  { unfold unicode_iscased.
    rewrite orb_true_iff, !andb_true_iff, !N.leb_le. lia. }
  assert (Hlow : unicode_tolower c = lo).
  { destruct (unicode_tolower_cases c)
      as [[H ->]|[[-> ->]|[[-> ->]|(H1 & H2 & H3 & ->)]]]; lia. }
  rewrite Hcased, Hlow. cbn [ignorecase IGNORECASE andb].
  unfold extra_cases.
  destruct (N.eqb_spec lo 0x69); [contradiction|].
  destruct (N.eqb_spec lo 0x73); [contradiction|].
  to_arith.
  destruct (unicode_tolower_cases ch)
    as [[H ->]|[[-> ->]|[[-> ->]|(H1 & H2 & H3 & ->)]]]; lia.
Qed.

Lemma literal_matches_s ch :
  literal_matches IGNORECASE 115 ch = letter_s ch.
Proof.
  apply bool_ext. unfold literal_matches.
  change (ignorecase IGNORECASE && unicode_iscased 115) with true.
  cbv iota. change (folded 115) with [115; 0x17f].
  to_arith.
  destruct (unicode_tolower_cases ch)
    as [[H ->]|[[-> ->]|[[-> ->]|(H1 & H2 & H3 & ->)]]]; lia.
Qed.

Lemma literal_matches_uncased c ch :
  unicode_iscased c = false -> literal_matches IGNORECASE c ch = (ch =? c).
Proof. intros H. unfold literal_matches. now rewrite H, andb_false_r. Qed.

End ReFacts.

Section Normalize.
Import re ReFacts.

(** The pattern matches at the start of [s] exactly when [s] has a home
    prefix, and the match ends where the prefix ends. *)
Lemma match_home_prefix s :
  sre_match IGNORECASE drive_letter_pattern None s
  = match home_prefix s with
    | Some rest => Some (Some 92, rest)
    | None => None
    end.
Proof.
  unfold home_prefix, drive_letter_pattern.
  destruct s as [|d [|colon [|b1 [|cu [|cs [|ce [|cr [|cs' [|b2 rest]]]]]]]]];
    cbn [sre_match at_beginning];
    rewrite ?in_matches_drive_letter,
      ?(literal_matches_uncased 58) by reflexivity;
    rewrite ?(literal_matches_uncased 92) by reflexivity;
    rewrite ?(literal_matches_letter 117 85) by lia;
    rewrite ?(literal_matches_letter 101 101) by lia;
    rewrite ?(literal_matches_letter 114 114) by lia;
    rewrite ?literal_matches_s;
    repeat match goal with
           | |- context [if ?b then _ else _] =>
               lazymatch b with
               | andb _ _ => fail
               | _ => destruct b eqn:?; cbn [andb]
               end
           end;
    try reflexivity.
  match goal with H : (b2 =? 92) = true |- _ => apply N.eqb_eq in H; now subst end.
Qed.

(** The anchor keeps the pattern from matching after the first
    position. *)
Lemma search_later must_advance c s :
  sre_search IGNORECASE drive_letter_pattern must_advance (Some c) s = None.
Proof.
  revert must_advance c. induction s as [|ch s IH]; intros must_advance c.
  - cbn. now rewrite andb_false_r.
  - cbn [sre_search]. rewrite IH.
    change (matches_empty drive_letter_pattern) with false.
    now rewrite andb_false_r.
Qed.

Lemma search_first s :
  sre_search IGNORECASE drive_letter_pattern false None s
  = match home_prefix s with
    | Some rest => Some ([], Some 92, rest)
    | None => None
    end.
Proof.
  destruct s as [|ch s]; [reflexivity|].
  cbn [sre_search andb]. rewrite match_home_prefix.
  destruct (home_prefix (ch :: s)) as [rest|]; [reflexivity|].
  now rewrite search_later.
Qed.

(** What the normaliser computes. *)
Lemma normalize_spec s :
  _normalize_space_key s
  = match home_prefix s with
    | Some rest => lit "~" ++ rest
    | None => s
    end.
Proof.
  unfold _normalize_space_key, sub. cbn [Nat.eqb subx].
  rewrite search_first. now destruct (home_prefix s).
Qed.

(** C3. Normalising a space key twice is normalising it once. *)
Theorem normalize_idempotent (s : str) :
  _normalize_space_key (_normalize_space_key s) = _normalize_space_key s.
Proof.
  rewrite (normalize_spec s). destruct (home_prefix s) as [rest|] eqn:E.
  - rewrite normalize_spec.
    now destruct rest as [|c1 [|c2 [|c3 [|c4 [|c5 [|c6 [|c7 [|c8 rest]]]]]]]].
  - rewrite normalize_spec. now rewrite E.
Qed.

(** C8. The normaliser maps [C:\Users\jdoe] and [c:\users\jdoe] to
    [~jdoe] and leaves [PROJ] alone. A key that starts with a drive
    letter, a colon and [\Users\] in any case becomes one tilde followed by
    the rest of the key as it is, so a second occurrence stays; a key that
    does not start so is returned unchanged, also when the pattern occurs
    further inside. *)
Theorem normalize_drive_letter_prefix :
  _normalize_space_key (lit "C:\Users\jdoe") = lit "~jdoe"
  /\ _normalize_space_key (lit "c:\users\jdoe") = lit "~jdoe"
  /\ _normalize_space_key (lit "PROJ") = lit "PROJ"
  /\ (forall s rest, home_prefix s = Some rest ->
        _normalize_space_key s = lit "~" ++ rest)
  /\ (forall s, home_prefix s = None -> _normalize_space_key s = s)
  /\ (forall s, sre_match IGNORECASE drive_letter_pattern None s = None ->
        _normalize_space_key s = s)
  /\ _normalize_space_key (lit "xC:\Users\jdoe") = lit "xC:\Users\jdoe"
  /\ _normalize_space_key (lit "C:\Users\C:\Users\jdoe") = lit "~C:\Users\jdoe".
Proof.
  repeat split; try reflexivity.
  - intros s rest H. now rewrite normalize_spec, H.
  - intros s H. now rewrite normalize_spec, H.
  - intros s H. rewrite match_home_prefix in H. rewrite normalize_spec.
    now destruct (home_prefix s).
Qed.

End Normalize.

(** ** Blank tokens *)

Section BlankTokens.
Context `{C : Collaborators}.
Import Py IntFacts.




End BlankTokens.

(** ** [config --show] *)

Section Config.
Context `{C : Collaborators}.


End Config.

(** ** The commands on the test double *)

Section MockRuns.
#[local] Existing Instance Mock.collaborators.

Example mock_pages_run :
  pages [lit "123"; lit "456"] (Some (lit "/tmp/out")) ∅ true
  = (Return tt, {["export.output_path"%string := VPath (lit "/tmp/out")]}, true,
     [E_measure_enter (lit "Export pages 123, 456");
      E_set_setting "export.output_path" (VPath (lit "/tmp/out")) (Return tt);
      E_Page_from_id 123 (Return (Mock.PageOfId 123));
      E_Page_export (Mock.PageOfId 123) (Return tt);
      E_Page_from_id 456 (Return (Mock.PageOfId 456));
      E_Page_export (Mock.PageOfId 456) (Return tt);
      E_measure_exit]).
Proof. vm_compute. reflexivity. Qed.

Example mock_descendants_url_run :
  pages_with_descendants [lit "https://wiki.example.com/pages/789"] None ∅ true
  = (Return tt, ∅, true,
     [E_measure_enter
        (lit "Export pages https://wiki.example.com/pages/789 with descendants");
      E_Page_from_url (lit "https://wiki.example.com/pages/789")
        (Return (Mock.PageOfUrl (lit "https://wiki.example.com/pages/789")));
      E_Page_export_with_descendants
        (Mock.PageOfUrl (lit "https://wiki.example.com/pages/789")) (Return tt);
      E_measure_exit]).
Proof. vm_compute. reflexivity. Qed.

Example mock_spaces_run :
  spaces [lit "~jdoe"; lit "C:\Users\asmith"] None ∅ true
  = (Return tt, ∅, true,
     [E_measure_enter (lit "Export spaces ~jdoe, ~asmith");
      E_Space_from_key (lit "~jdoe") (Return (lit "~jdoe"));
      E_Space_export (lit "~jdoe") (Return tt);
      E_Space_from_key (lit "~asmith") (Return (lit "~asmith"));
      E_Space_export (lit "~asmith") (Return tt);
      E_measure_exit]).
Proof. vm_compute. reflexivity. Qed.

(** C1, as the specification words it, fails on the code: the token
    U+0663 (ARABIC-INDIC DIGIT THREE) is not empty and is not an ASCII
    digit, and it goes to [Page.from_id] with 3; a token of 4301 ASCII
    digits makes [int] raise under the default length limit; the empty
    token is made of ASCII digits only and goes to [Page.from_url]. *)
Lemma resolution_as_specified_fails :
  ~ resolution_as_specified [0x663] ∅ true
  /\ ~ resolution_as_specified (repeat 49 4301) ∅ true
  /\ ~ resolution_as_specified [] ∅ true.
Proof.
  split; [|split].
  - intros [_ H].
    specialize (H ltac:(discriminate)
                  ltac:(apply List.Exists_cons_hd; reflexivity)).
    vm_compute in H. discriminate H.
  - intros [H _].
    assert (Hall : all_ascii_digits (repeat 49 4301)).
    { apply List.Forall_forall. intros x Hin.
      apply repeat_spec in Hin. now subst. }
    specialize (H Hall). vm_compute in H. discriminate H.
  - intros [H _]. specialize (H (List.Forall_nil _)).
    vm_compute in H. discriminate H.
Qed.


(** C1 on the tokens [123] and [https://wiki.example.com/pages/789]. *)
Lemma resolution_by_digit_class_witness :
  (lit "123" <> [] /\ all_decimal (lit "123")
   /\ Py.exceeds_limit max_str_digits (length (lit "123")) = false)
  /\ _page (lit "123") ∅ true
     = call (E_Page_from_id 123) (Page_from_id 123) ∅ true
  /\ has_non_digit (lit "https://wiki.example.com/pages/789")
  /\ _page (lit "https://wiki.example.com/pages/789") ∅ true
     = call (E_Page_from_url (lit "https://wiki.example.com/pages/789"))
         (Page_from_url (lit "https://wiki.example.com/pages/789")) ∅ true.
Proof.
  assert (H1 : all_decimal (lit "123")) by (repeat constructor).
  assert (H2 : has_non_digit (lit "https://wiki.example.com/pages/789"))
    by (apply List.Exists_cons_hd; reflexivity).
  destruct (resolution_by_digit_class (C := Mock.collaborators)
              (lit "123") ∅ true) as (Hid & _ & _).
  destruct (resolution_by_digit_class (C := Mock.collaborators)
              (lit "https://wiki.example.com/pages/789") ∅ true)
    as (_ & Hurl & _).
  split; [split; [discriminate | split; [exact H1 | reflexivity]]|].
  split; [exact (Hid ltac:(discriminate) H1 eq_refl)|].
  split; [exact H2 | exact (Hurl (or_intror H2))].
Defined.

(** C5 on the batch [123 500 456], where the export of page 500 fails,
    and on [all_spaces] when the API cannot be reached. *)
Lemma commands_fail_fast_witness :
  pages [lit "123"; lit "500"; lit "456"] (Some (lit "/tmp/out")) ∅ true
  = (Raise (OtherError 500),
     {["export.output_path"%string := VPath (lit "/tmp/out")]}, true,
     E_measure_enter (lit "Export pages 123, 500, 456")
     :: [E_set_setting "export.output_path" (VPath (lit "/tmp/out")) (Return tt);
         E_Page_from_id 123 (Return (Mock.PageOfId 123));
         E_Page_export (Mock.PageOfId 123) (Return tt)]
     ++ [E_Page_from_id 500 (Return (Mock.PageOfId 500));
         E_Page_export (Mock.PageOfId 500) (Raise (OtherError 500))]
     ++ [E_measure_exit])
  /\ all_spaces None ∅ false
     = (Raise (OtherError 503), ∅, false,
        E_measure_enter (lit "Export all spaces")
        :: [] ++ [E_Organization_from_api (Raise (OtherError 503));
                  E_measure_exit]).
Proof.
  destruct (commands_fail_fast (C := Mock.collaborators))
    as (Hpages & _ & _ & Hall).
  split.
  - refine (proj1 (Hpages [lit "123"] (lit "500") [lit "456"]
                     (Some (lit "/tmp/out")) ∅ true
                     {["export.output_path"%string := VPath (lit "/tmp/out")]}
                     true _ (OtherError 500)
                     {["export.output_path"%string := VPath (lit "/tmp/out")]}
                     true _ _ _)).
    + vm_compute. reflexivity.
    + vm_compute. reflexivity.
  - exact (proj1 (Hall None ∅ false ∅ false [] eq_refl)
             (OtherError 503) false eq_refl).
Defined.

(** C8 on [C:\Users\jdoe] and on [PROJ]. *)
Lemma normalize_drive_letter_prefix_witness :
  home_prefix (lit "C:\Users\jdoe") = Some (lit "jdoe")
  /\ _normalize_space_key (lit "C:\Users\jdoe") = lit "~" ++ lit "jdoe"
  /\ home_prefix (lit "PROJ") = None
  /\ _normalize_space_key (lit "PROJ") = lit "PROJ".
Proof.
  destruct normalize_drive_letter_prefix as (_ & _ & _ & Hsome & Hnone & _).
  split; [reflexivity|].
  split; [exact (Hsome (lit "C:\Users\jdoe") (lit "jdoe") eq_refl)|].
  split; [reflexivity | exact (Hnone (lit "PROJ") eq_refl)].
Defined.



End MockRuns.

(** * Further properties *)

(** ** When [int] raises on a string of digits *)

Module IntRaises.
Import Py PyFacts IntFacts.

Lemma isdigit_inv s :
  isdigit s = true ->
  s <> [] /\ List.Forall (fun ch => Py_UNICODE_ISDIGIT ch = true) s.
Proof.
  destruct s as [|ch s]; [discriminate|]. unfold isdigit. intros H.
  split; [discriminate|]. apply List.Forall_forall.
  now rewrite forallb_forall in H.
Qed.

Lemma forallb_decimal s :
  forallb Py_UNICODE_ISDECIMAL s = true <-> all_decimal s.
Proof.
  unfold all_decimal. rewrite forallb_forall, List.Forall_forall. tauto.
Qed.

Lemma not_all_decimal s :
  forallb Py_UNICODE_ISDECIMAL s = false ->
  List.Exists (fun ch => Py_UNICODE_ISDECIMAL ch = false) s.
Proof.
  induction s as [|ch s IH]; [discriminate|]. cbn [forallb].
  destruct (Py_UNICODE_ISDECIMAL ch) eqn:E; cbn [andb]; intros H.
  - apply List.Exists_cons_tl. now apply IH.
  - now apply List.Exists_cons_hd.
Qed.

(** A digit that is not decimal ends the transformed string with [?]. *)
Lemma transform_digit_not_decimal ch s :
  Py_UNICODE_ISDIGIT ch = true -> Py_UNICODE_ISDECIMAL ch = false ->
  _PyUnicode_TransformDecimalAndSpaceToASCII (ch :: s) = [63].
Proof.
  intros Hdig Hdec. cbn [_PyUnicode_TransformDecimalAndSpaceToASCII].
  unfold Py_UNICODE_ISDECIMAL in Hdec.
  destruct (Py_UNICODE_TODECIMAL ch) as [d|] eqn:Ed; [discriminate|].
  destruct (ch <? 127) eqn:Hlt.
  - apply N.ltb_lt in Hlt. unfold Py_UNICODE_ISDIGIT in Hdig.
    destruct (Py_UNICODE_TODIGIT ch) as [v|] eqn:Ev; [|discriminate].
    destruct (digit_below_127 ch v Hlt Ev) as [Ha _].
    rewrite (ascii_digit_decimal ch Ha) in Ed. discriminate.
  - destruct (Py_UNICODE_ISSPACE ch) eqn:Hsp; [|reflexivity].
    apply space_not_digit in Hsp. congruence.
Qed.

Lemma transform_non_decimal s :
  List.Forall (fun ch => Py_UNICODE_ISDIGIT ch = true) s ->
  List.Exists (fun ch => Py_UNICODE_ISDECIMAL ch = false) s ->
  exists ds, List.Forall (fun c => is_ascii_digit c = true) ds
             /\ _PyUnicode_TransformDecimalAndSpaceToASCII s = ds ++ [63].
Proof.
  induction s as [|ch s IH]; intros Hdig Hex.
  - inversion Hex.
  - inversion Hdig as [|? ? Hch Hs]; subst.
    destruct (Py_UNICODE_ISDECIMAL ch) eqn:Edec.
    + inversion Hex as [? ? Hhd|? ? Htl]; subst; [congruence|].
      destruct (IH Hs Htl) as (ds & Hds & Htr).
      destruct (isdecimal_value ch Edec) as (d & Hd & Hle).
      exists ((48 + d) :: ds). split.
      * constructor; [now apply ascii_digit_of_value | assumption].
      * now rewrite (transform_cons_decimal _ _ _ Hd), Htr.
    + exists []. split; [constructor|].
      now apply transform_digit_not_decimal.
Qed.

(** The scan over ASCII digits stops at the [?] that follows them. *)
Lemma scan_stops ds tl :
  List.Forall (fun c => is_ascii_digit c = true) ds ->
  forall prev n acc, (prev =? 95) = false ->
  exists prev' acc',
    scan_digits prev n acc (ds ++ 63 :: tl)
    = Some (prev', (n + length ds)%nat, acc', 63 :: tl)
    /\ (prev' =? 95) = false.
Proof.
  induction 1 as [|c ds Hc Hds IH]; intros prev n acc Hprev.
  - exists prev, acc. split; [|assumption]. cbn. now rewrite Nat.add_0_r.
  - cbn [app scan_digits length]. rewrite Hc.
    destruct (IH c (S n) (10 * acc + Z.of_N (c - 48))%Z
                (ascii_digit_not_underscore _ Hc)) as (prev' & acc' & Hscan & Hp').
    exists prev', acc'. split; [|assumption].
    now rewrite Hscan, Nat.add_succ_r.
Qed.

Lemma PyLong_FromString_stops max ds :
  List.Forall (fun c => is_ascii_digit c = true) ds ->
  PyLong_FromString max (ds ++ [63]) = Raise ValueError.
Proof.
  intros Hds. destruct ds as [|c ds]; [reflexivity|].
  inversion Hds as [|? ? Hc Hrest]; subst.
  destruct (scan_stops (c :: ds) [] Hds 0 0%nat 0%Z eq_refl)
    as (prev' & acc' & Hscan & Hp').
  unfold PyLong_FromString. cbn [app] in *.
  destruct (ascii_digit_cases _ Hc) as
    [E|[E|[E|[E|[E|[E|[E|[E|[E|E]]]]]]]]]; rewrite E in *;
    cbn [skip_spaces Py_ISSPACE N.eqb N.leb N.compare Pos.eqb Pos.compare
         Pos.compare_cont orb andb];
    rewrite Hscan, Hp'; cbn [Nat.add length];
    destruct (exceeds_limit max (S (length ds))); reflexivity.
Qed.

(** [int] raises on a string of digits one of which is not decimal. *)
Lemma int_raises_non_decimal max s :
  List.Forall (fun ch => Py_UNICODE_ISDIGIT ch = true) s ->
  List.Exists (fun ch => Py_UNICODE_ISDECIMAL ch = false) s ->
  int max s = Raise ValueError.
Proof.
  intros Hdig Hex. destruct (transform_non_decimal s Hdig Hex) as (ds & Hds & Htr).
  unfold int. rewrite Htr. now apply PyLong_FromString_stops.
Qed.

(** [int] raises on a string of decimal digits over the length limit. *)
Lemma int_raises_over_limit max s :
  s <> [] -> all_decimal s -> exceeds_limit max (length s) = true ->
  int max s = Raise ValueError.
Proof.
  intros Hne Hall Hlim. destruct s as [|ch s]; [congruence|].
  pose proof Hall as Hall'. inversion Hall' as [|? ? Hch Hs]; subst.
  destruct (isdecimal_value ch Hch) as (d & Hd & Hle).
  destruct (scan_decimal (ch :: s) Hall 0 0%nat 0%Z eq_refl)
    as (prev' & Hscan & Hp').
  unfold int, PyLong_FromString.
  rewrite (transform_cons_decimal _ _ _ Hd) in *.
  set (rest := _PyUnicode_TransformDecimalAndSpaceToASCII s) in *.
  assert (Hfirst : is_ascii_digit (48 + d) = true)
    by now apply ascii_digit_of_value.
  destruct (ascii_digit_cases _ Hfirst) as
    [E|[E|[E|[E|[E|[E|[E|[E|[E|E]]]]]]]]]; rewrite E in *;
    cbn [skip_spaces Py_ISSPACE N.eqb N.leb N.compare Pos.eqb Pos.compare
         Pos.compare_cont orb andb];
    rewrite Hscan, Hp'; cbn [Nat.add] in Hlim |- *; now rewrite Hlim.
Qed.

End IntRaises.

(** ** Resolution of a token, in full *)

Section ResolutionCases.
Context `{C : Collaborators}.
Import Py PyFacts IntFacts IntRaises.

Lemma _page_raises token e σ w :
  isdigit token = true -> int max_str_digits token = Raise e ->
  _page token σ w = (Raise e, σ, w, []).
Proof. intros Hd Hi. unfold _page. now rewrite Hd, Hi. Qed.

(** On a token [str.isdigit] accepts, [int] returns only if the token is
    one it reads, and then it returns its number. *)
Lemma int_returns token n :
  isdigit token = true -> int max_str_digits token = Return n ->
  numeric token /\ n = parseInt token.
Proof.
  intros Hd Hi. destruct (isdigit_inv token Hd) as [Hne Hdig].
  destruct (forallb Py_UNICODE_ISDECIMAL token) eqn:Edec.
  - apply forallb_decimal in Edec.
    destruct (exceeds_limit max_str_digits (length token)) eqn:Elim.
    + rewrite (int_raises_over_limit _ _ Hne Edec Elim) in Hi. discriminate.
    + rewrite (int_decimal _ _ Hne Edec Elim) in Hi. injection Hi as <-.
      now repeat split.
  - apply not_all_decimal in Edec.
    rewrite (int_raises_non_decimal _ _ Hdig Edec) in Hi. discriminate.
Qed.

Lemma int_raises_ValueError token e :
  isdigit token = true -> int max_str_digits token = Raise e -> e = ValueError.
Proof.
  intros Hd Hi. destruct (isdigit_inv token Hd) as [Hne Hdig].
  destruct (forallb Py_UNICODE_ISDECIMAL token) eqn:Edec.
  - apply forallb_decimal in Edec.
    destruct (exceeds_limit max_str_digits (length token)) eqn:Elim.
    + rewrite (int_raises_over_limit _ _ Hne Edec Elim) in Hi. congruence.
    + rewrite (int_decimal _ _ Hne Edec Elim) in Hi. discriminate.
  - apply not_all_decimal in Edec.
    rewrite (int_raises_non_decimal _ _ Hdig Edec) in Hi. congruence.
Qed.

(** X1. Every token is resolved in one of three ways. A token [int]
    reads (not empty, decimal digits only, within the length limit) goes
    to [Page.from_id] with its number. A token [str.isdigit] rejects goes
    to [Page.from_url] unchanged. Any other token, that is one
    [str.isdigit] accepts and [int] does not read, raises [ValueError]
    and nothing is called. *)
Theorem resolution_trichotomy (token : str) (σ : Settings) (w : World) :
  (numeric token
   /\ _page token σ w
      = call (E_Page_from_id (parseInt token)) (Page_from_id (parseInt token)) σ w)
  \/ (isdigit token = false
      /\ _page token σ w
         = call (E_Page_from_url token) (Page_from_url token) σ w)
  \/ (isdigit token = true /\ ~ numeric token
      /\ _page token σ w = (Raise ValueError, σ, w, [])).
Proof.
  destruct (isdigit token) eqn:Hd.
  - destruct (int max_str_digits token) as [n|e] eqn:Hi.
    + left. destruct (int_returns token n Hd Hi) as [Hnum ->].
      split; [assumption|]. destruct Hnum as (Hne & Hdec & Hlim).
      now apply _page_digits.
    + right; right. split; [reflexivity|].
      pose proof (int_raises_ValueError token e Hd Hi) as ->.
      split; [|now apply _page_raises].
      intros (Hne & Hdec & Hlim).
      rewrite (int_decimal _ _ Hne Hdec Hlim) in Hi. discriminate.
  - right; left. split; [reflexivity | now apply _page_url].
Qed.

Lemma parseInt_nonneg s : (0 <= parseInt s)%Z.
Proof.
  unfold parseInt.
  assert (H : forall acc, (0 <= acc)%Z ->
            (0 <= fold_left (fun acc ch =>
                    (10 * acc
                     + Z.of_N (default 0%N (Py_UNICODE_TODECIMAL ch)))%Z)
                   s acc)%Z).
  { induction s as [|ch s IH]; intros acc Hacc; [assumption|].
    cbn [fold_left]. apply IH. lia. }
  apply H. lia.
Qed.

Lemma parseInt_digit_values s :
  parseInt s
  = fold_left (fun acc v => (10 * acc + Z.of_N (default 0%N v))%Z)
      (digit_values s) 0%Z.
Proof.
  unfold parseInt, digit_values. generalize 0%Z.
  induction s as [|ch s IH]; intros acc; [reflexivity|].
  cbn [fold_left List.map]. apply IH.
Qed.

(** X7. Tokens that denote the same number are resolved alike: two
    tokens [int] reads whose digits have the same values, whatever the
    script, lead to the same call of [Page.from_id]; so does a token with
    a zero put in front. *)
Theorem same_number_same_page (t1 t2 : str) (σ : Settings) (w : World) :
  numeric t1 -> numeric t2 ->
  digit_values t1 = digit_values t2
  \/ (exists z, Py_UNICODE_TODECIMAL z = Some 0 /\ t1 = z :: t2) ->
  _page t1 σ w = _page t2 σ w.
Proof.
  intros (Hne1 & Hdec1 & Hlim1) (Hne2 & Hdec2 & Hlim2) Hsame.
  rewrite (_page_digits t1 σ w Hne1 Hdec1 Hlim1),
    (_page_digits t2 σ w Hne2 Hdec2 Hlim2).
  assert (Heq : parseInt t1 = parseInt t2).
  { destruct Hsame as [Hv|(z & Hz & ->)].
    - now rewrite !parseInt_digit_values, Hv.
    - unfold parseInt. cbn [fold_left]. now rewrite Hz. }
  now rewrite Heq.
Qed.

End ResolutionCases.

(** ** The shape of a batch of pages *)

Section PageBatches.
Context `{C : Collaborators}.
Import Py PyFacts IntFacts IntRaises.

(** What the resolving expression does, by the constructor call the token
    is resolved to. *)
Lemma _page_by_ctor token σ w :
  match page_ctor token with
  | Raise e => _page token σ w = (Raise e, σ, w, [])
  | Return ctor => exists r w1, _page token σ w = (r, σ, w1, [ctor r])
  end.
Proof.
  unfold page_ctor, _page. destruct (isdigit token).
  - destruct (int max_str_digits token) as [n|e]; [|reflexivity].
    cbn [lift]. rewrite bind_ret_l. unfold call.
    destruct (Page_from_id n σ w) as [r w1]. now exists r, w1.
  - unfold call. destruct (Page_from_url token σ w) as [r w1].
    now exists r, w1.
Qed.

(** How a command runs, by the outcome of the override. *)
Lemma command_split (step : str) (loop : M unit) v σ w :
  match override_output_path_config v σ w with
  | (Return _, σ0, w0, t0) =>
      measure step (override_output_path_config v >> loop) σ w
      = (outcome_of (loop σ0 w0), settings_of (loop σ0 w0),
         world_of (loop σ0 w0),
         E_measure_enter step :: t0 ++ events_of (loop σ0 w0) ++ [E_measure_exit])
  | (Raise e, σ0, w0, t0) =>
      measure step (override_output_path_config v >> loop) σ w
      = (Raise e, σ0, w0, E_measure_enter step :: t0 ++ [E_measure_exit])
  end.
Proof.
  unfold measure, bind.
  destruct (override_output_path_config v σ w) as [[[[[]|e] σ0] w0] t0].
  - unfold outcome_of, settings_of, world_of, events_of.
    destruct (loop σ0 w0) as [[[r σ1] w1] t1]. cbn.
    now rewrite <- app_assoc.
  - reflexivity.
Qed.

(** The loop of a page command leaves a batch trace. *)
Lemma page_loop_trace (export : Page -> outcome unit -> event)
    (ex : Page -> ext World unit) tokens σ w :
  page_batch_trace export tokens
    (outcome_of (for_each tokens (fun page => let! p := _page page in
                                              call (export p) (ex p)) σ w))
    (events_of (for_each tokens (fun page => let! p := _page page in
                                             call (export p) (ex p)) σ w)).
Proof.
  set (body := fun page => let! p := _page page in call (export p) (ex p)).
  assert (Hbody : forall x σ w,
             match page_ctor x with
             | Raise e => body x σ w = (Raise e, σ, w, [])
             | Return ctor =>
                 exists r w1,
                   body x σ w
                   = match r with
                     | Return p =>
                         match ex p σ w1 with
                         | (r2, w2) =>
                             (r2, σ, w2, [ctor (Return p); export p r2])
                         end
                     | Raise e => (Raise e, σ, w1, [ctor (Raise e)])
                     end
             end).
  { intros x σ' w'. pose proof (_page_by_ctor x σ' w') as Hp.
    destruct (page_ctor x) as [ctor|e].
    - destruct Hp as (r & w1 & Hp). exists r, w1.
      unfold body, bind. rewrite Hp. destruct r as [p|e]; [|reflexivity].
      unfold call. now destruct (ex p σ' w1) as [r2 w2].
    - unfold body, bind. now rewrite Hp. }
  clearbody body. revert σ w.
  induction tokens as [|x tokens IH]; intros σ w; [constructor|].
  cbn [for_each]. unfold bind. specialize (Hbody x σ w).
  destruct (page_ctor x) as [ctor|e] eqn:Hctor.
  - destruct Hbody as (r & w1 & Hb). rewrite Hb.
    destruct r as [p|e]; [|now apply page_batch_ctor_raises].
    destruct (ex p σ w1) as [[[]|e] w2];
      [|now apply page_batch_export_raises].
    specialize (IH σ w2). unfold outcome_of, events_of in *.
    destruct (for_each tokens body σ w2) as [[[r σ3] w3] t3]. cbn in *.
    now apply page_batch_next.
  - rewrite Hbody. now apply page_batch_resolve_raises.
Qed.

Lemma page_ctor_not_export token ctor r :
  page_ctor token = Return ctor -> is_export_done (ctor r) = false.
Proof.
  unfold page_ctor. destruct (isdigit token).
  - destruct (int max_str_digits token); [|discriminate]. now intros [= <-].
  - now intros [= <-].
Qed.

Lemma page_ctor_from_id token ctor r :
  page_ctor token = Return ctor -> from_id_of [token] (ctor r).
Proof.
  unfold page_ctor. destruct (isdigit token) eqn:Hd.
  - destruct (int max_str_digits token) as [n|e] eqn:Hi; [|discriminate].
    intros [= <-]. destruct (int_returns token n Hd Hi) as [Hnum ->].
    exists token. split; [now left | now split].
  - now intros [= <-].
Qed.

Lemma from_id_of_mono tokens tokens' ev :
  (forall x, In x tokens -> In x tokens') ->
  from_id_of tokens ev -> from_id_of tokens' ev.
Proof.
  intros Hsub. destruct ev; cbn; auto.
  intros (token & Hin & H). exists token. split; auto.
Qed.

Lemma batch_from_id (export : Page -> outcome unit -> event) tokens r t :
  (forall p r, is_Page_from_id (export p r) = false) ->
  page_batch_trace export tokens r t ->
  List.Forall (from_id_of tokens) t.
Proof.
  intros Hex.
  assert (Hexp : forall p r l, from_id_of l (export p r)).
  { intros p r0 l. specialize (Hex p r0). now destruct (export p r0). }
  induction 1 as [|token tokens e Hc|token tokens ctor e Hc
                  |token tokens ctor p e Hc|token tokens ctor p r t Hc Hrest IH].
  - constructor.
  - constructor.
  - constructor; [|constructor].
    apply from_id_of_mono with [token]; [|now apply page_ctor_from_id].
    intros x [->|[]]. now left.
  - constructor; [|constructor; [apply Hexp | constructor]].
    apply from_id_of_mono with [token]; [|now apply page_ctor_from_id].
    intros x [->|[]]. now left.
  - constructor; [|constructor; [apply Hexp|]].
    + apply from_id_of_mono with [token]; [|now apply page_ctor_from_id].
      intros x [->|[]]. now left.
    + apply List.Forall_impl with (P := from_id_of tokens); [|exact IH].
      intros ev. apply from_id_of_mono. intros x Hx. now right.
Qed.

Lemma batch_export_count (export : Page -> outcome unit -> event) tokens r t :
  (forall p r, is_export_done (export p r)
               = match r with Return _ => true | Raise _ => false end) ->
  page_batch_trace export tokens r t ->
  (length (List.filter is_export_done t) <= length tokens)%nat
  /\ (r = Return tt ->
      length (List.filter is_export_done t) = length tokens).
Proof.
  intros Hex.
  induction 1 as [|token tokens e Hc|token tokens ctor e Hc
                  |token tokens ctor p e Hc|token tokens ctor p r t Hc Hrest IH];
    cbn [List.filter length];
    rewrite ?(page_ctor_not_export _ _ _ Hc), ?Hex; cbn [List.filter length].
  - split; [lia | reflexivity].
  - split; [lia | discriminate].
  - split; [lia | discriminate].
  - split; [lia | discriminate].
  - destruct IH as [Hle Heq]. split; [lia|]. intros Hr. now rewrite Heq.
Qed.

End PageBatches.

Section PageCommands.
Context `{C : Collaborators}.

Lemma override_events_from_id tokens v σ w :
  List.Forall (from_id_of tokens)
    (events_of (override_output_path_config v σ w)).
Proof.
  destruct v as [p|]; [|constructor].
  unfold override_output_path_config, set_setting, events_of.
  destruct (set_setting_validate _ _ σ w) as [[[]|e] w'];
    now repeat constructor.
Qed.

(** A page command, whatever its export method: the events are the start
    of the scope, those of the override, a batch trace, the end of the
    scope. *)
Lemma page_command_shape (step : str) (export : Page -> outcome unit -> event)
    (ex : Page -> ext World unit) tokens v σ w :
  (forall p r, is_export_done (export p r)
               = match r with Return _ => true | Raise _ => false end) ->
  (forall p r, is_Page_from_id (export p r) = false) ->
  let res := measure step
               (override_output_path_config v >>
                for_each tokens (fun page => let! p := _page page in
                                             call (export p) (ex p))) σ w in
  let ov := override_output_path_config v σ w in
  (exists t,
      events_of res = E_measure_enter step :: events_of ov ++ t ++ [E_measure_exit]
      /\ (outcome_of ov = Return tt ->
          page_batch_trace export tokens (outcome_of res) t)
      /\ (forall e, outcome_of ov = Raise e ->
                    t = [] /\ outcome_of res = Raise e))
  /\ (length (List.filter is_export_done (events_of res)) <= length tokens)%nat
  /\ (outcome_of res = Return tt ->
      length (List.filter is_export_done (events_of res)) = length tokens)
  /\ List.Forall (from_id_of tokens) (events_of res).
Proof.
  intros Hdone Hfid. cbn zeta.
  set (loop := for_each tokens _).
  pose proof (command_split step loop v σ w) as Hsplit.
  pose proof (override_no_export v σ w) as Hnoexp.
  pose proof (override_events_from_id tokens v σ w) as Hovid.
  unfold events_of, outcome_of in *.
  destruct (override_output_path_config v σ w) as [[[[[]|e] σ0] w0] t0];
    rewrite Hsplit; cbn in Hnoexp, Hovid |- *.
  - pose proof (page_loop_trace export ex tokens σ0 w0) as Htrace.
    fold loop in Htrace. unfold events_of, outcome_of in *.
    destruct (loop σ0 w0) as [[[r σ1] w1] t1]. cbn in Htrace |- *.
    destruct (batch_export_count export tokens r t1 Hdone Htrace) as [Hle Heq].
    assert (Hfilter : List.filter is_export_done (t0 ++ t1 ++ [E_measure_exit])
                      = List.filter is_export_done t1).
    { rewrite !List.filter_app, Hnoexp. cbn. now rewrite app_nil_r. }
    split; [|split; [|split]].
    + exists t1. split; [reflexivity|]. split; [auto | discriminate].
    + now rewrite Hfilter.
    + intros Hr. rewrite Hfilter. now apply Heq.
    + constructor; [exact I|]. apply List.Forall_app. split; [assumption|].
      apply List.Forall_app. split; [|now repeat constructor].
      now apply batch_from_id with export r.
  - split; [|split; [|split]].
    + exists []. split; [reflexivity|]. split; [discriminate|].
      now intros e0 [= <-].
    + rewrite List.filter_app, Hnoexp. cbn. lia.
    + discriminate.
    + constructor; [exact I|]. apply List.Forall_app.
      split; [assumption | now repeat constructor].
Qed.

(** X3. [pages] and [pages_with_descendants] on any tokens: after the
    start of the measured scope and the override, the calls form a batch
    trace over the tokens in input order (each token resolved, its page
    constructed and exported at once, up to the first failure), then the
    scope ends. At most one export is performed per token, and exactly one
    per token when the command returns. *)
Theorem page_commands_batch_shape (tokens : list str)
    (output_path : option Path) (σ : Settings) (w : World) :
  let ov := override_output_path_config output_path σ w in
  let res := pages tokens output_path σ w in
  let res' := pages_with_descendants tokens output_path σ w in
  ((exists t,
       events_of res
       = E_measure_enter (pages_step tokens)
         :: events_of ov ++ t ++ [E_measure_exit]
       /\ (outcome_of ov = Return tt ->
           page_batch_trace E_Page_export tokens (outcome_of res) t)
       /\ (forall e, outcome_of ov = Raise e ->
                     t = [] /\ outcome_of res = Raise e))
   /\ (length (List.filter is_export_done (events_of res)) <= length tokens)%nat
   /\ (outcome_of res = Return tt ->
       length (List.filter is_export_done (events_of res)) = length tokens))
  /\ ((exists t,
          events_of res'
          = E_measure_enter (pages_with_descendants_step tokens)
            :: events_of ov ++ t ++ [E_measure_exit]
          /\ (outcome_of ov = Return tt ->
              page_batch_trace E_Page_export_with_descendants tokens
                (outcome_of res') t)
          /\ (forall e, outcome_of ov = Raise e ->
                        t = [] /\ outcome_of res' = Raise e))
      /\ (length (List.filter is_export_done (events_of res'))
          <= length tokens)%nat
      /\ (outcome_of res' = Return tt ->
          length (List.filter is_export_done (events_of res'))
          = length tokens)).
Proof.
  cbn zeta. split.
  - destruct (page_command_shape (pages_step tokens) E_Page_export Page_export
                tokens output_path σ w
                ltac:(intros p [|]; reflexivity) ltac:(reflexivity))
      as (H1 & H2 & H3 & _).
    exact (conj H1 (conj H2 H3)).
  - destruct (page_command_shape (pages_with_descendants_step tokens)
                E_Page_export_with_descendants Page_export_with_descendants
                tokens output_path σ w
                ltac:(intros p [|]; reflexivity) ltac:(reflexivity))
      as (H1 & H2 & H3 & _).
    exact (conj H1 (conj H2 H3)).
Qed.

(** X2. Whenever a page command calls [Page.from_id], the argument is the
    number of one of its tokens, a token [int] reads; in particular the
    argument is never negative. *)
Theorem from_id_argument (tokens : list str) (output_path : option Path)
    (σ : Settings) (w : World) (n : Z) (r : outcome Page) :
  In (E_Page_from_id n r) (events_of (pages tokens output_path σ w))
  \/ In (E_Page_from_id n r)
       (events_of (pages_with_descendants tokens output_path σ w)) ->
  (0 <= n)%Z
  /\ exists token, In token tokens /\ numeric token /\ n = parseInt token.
Proof.
  intros Hin.
  assert (H : from_id_of tokens (E_Page_from_id n r)).
  { destruct Hin as [Hin|Hin].
    - destruct (page_command_shape (pages_step tokens) E_Page_export
                  Page_export tokens output_path σ w
                  ltac:(intros p [|]; reflexivity) ltac:(reflexivity))
        as (_ & _ & _ & Hall).
      rewrite List.Forall_forall in Hall. exact (Hall _ Hin).
    - destruct (page_command_shape (pages_with_descendants_step tokens)
                  E_Page_export_with_descendants Page_export_with_descendants
                  tokens output_path σ w
                  ltac:(intros p [|]; reflexivity) ltac:(reflexivity))
        as (_ & _ & _ & Hall).
      rewrite List.Forall_forall in Hall. exact (Hall _ Hin). }
  cbn in H. destruct H as (token & Htok & Hnum & ->).
  split; [apply parseInt_nonneg | now exists token].
Qed.

End PageCommands.

(** ** Splitting a batch *)

Section SplitBatches.
Context `{C : Collaborators}.

Lemma for_each_app {A} (body : A -> M unit) xs ys σ w :
  for_each (xs ++ ys) body σ w
  = bind (for_each xs body) (fun _ => for_each ys body) σ w.
Proof.
  revert σ w. induction xs as [|x xs IH]; intros σ w.
  - cbn [app for_each]. now rewrite bind_ret_l.
  - cbn [app for_each]. unfold bind.
    destruct (body x σ w) as [[[[[]|e] σ1] w1] t1]; [|reflexivity].
    rewrite IH. unfold bind.
    destruct (for_each xs body σ1 w1) as [[[[[]|e] σ2] w2] t2];
      [|reflexivity].
    destruct (for_each ys body σ2 w2) as [[[r σ3] w3] t3].
    now rewrite app_assoc.
Qed.

Lemma calls_app t1 t2 : calls (t1 ++ t2) = calls t1 ++ calls t2.
Proof. apply List.filter_app. Qed.

Lemma splits_measure {X Y} (step : list X -> str) (prep : X -> Y)
    (body : Y -> M unit) :
  splits (fun xs output_path =>
            measure (step xs)
              (override_output_path_config output_path >>
               for_each (List.map prep xs) body)).
Proof.
  intros xs ys v σ w. cbv beta.
  set (lx := for_each (List.map prep xs) body).
  set (ly := for_each (List.map prep ys) body).
  assert (Hloop : forall σ0 w0,
             for_each (List.map prep (xs ++ ys)) body σ0 w0
             = match lx σ0 w0 with
               | (Return _, σa, wa, ta) =>
                   (outcome_of (ly σa wa), settings_of (ly σa wa),
                    world_of (ly σa wa), ta ++ events_of (ly σa wa))
               | (Raise e, σa, wa, ta) => (Raise e, σa, wa, ta)
               end).
  { intros σ0 w0. rewrite List.map_app, for_each_app. unfold bind.
    fold lx ly. destruct (lx σ0 w0) as [[[[[]|e] σa] wa] ta]; [|reflexivity].
    now destruct (ly σa wa) as [[[r σb] wb] tb]. }
  assert (Hys : forall σa wa,
             measure (step ys) (override_output_path_config None >> ly) σa wa
             = (outcome_of (ly σa wa), settings_of (ly σa wa),
                world_of (ly σa wa),
                E_measure_enter (step ys)
                :: [] ++ events_of (ly σa wa) ++ [E_measure_exit]))
    by (intros σa wa; exact (command_split (step ys) ly None σa wa)).
  pose proof (command_split (step xs) lx v σ w) as Hxs.
  pose proof (command_split (step (xs ++ ys))
                (for_each (List.map prep (xs ++ ys)) body) v σ w) as Hall.
  destruct (override_output_path_config v σ w) as [[[[[]|e0] σ0] w0] t0];
    rewrite Hxs, Hall; clear Hxs Hall.
  - rewrite Hloop.
    destruct (lx σ0 w0) as [[[[[]|e] σa] wa] ta];
      unfold outcome_of, settings_of, world_of, events_of; cbn [fst snd].
    + split; [|intros; discriminate].
      intros σ1 w1 t1 [= <- <- <-]. rewrite Hys.
      unfold outcome_of, settings_of, world_of, events_of; cbn [fst snd].
      repeat split.
      unfold calls. cbn [List.filter is_measure negb app].
      rewrite !List.filter_app. cbn [List.filter is_measure negb].
      now rewrite !app_nil_r, app_assoc.
    + split; [intros; discriminate|].
      intros e' σ1 w1 t1 [= <- <- <- <-]. repeat split.
  - unfold outcome_of, settings_of, world_of, events_of; cbn [fst snd].
    split; [intros; discriminate|].
    intros e' σ1 w1 t1 [= <- <- <- <-]. repeat split.
Qed.

(** X4. The three batch commands can be split: exporting [xs ++ ys] in
    one run ends as exporting [xs] and then [ys] (the second run without
    the output-path option, since the first one has written it), with the
    same calls in the same order; and a batch that fails on [xs] fails the
    same way, after the same calls, whatever follows [xs]. *)
Theorem batch_commands_split :
  splits pages /\ splits pages_with_descendants /\ splits spaces.
Proof.
  split; [|split].
  - intros xs ys v σ w.
    pose proof (splits_measure pages_step (fun page => page) pages_body
                  xs ys v σ w) as H.
    cbv beta in H. rewrite !List.map_id in H. exact H.
  - intros xs ys v σ w.
    pose proof (splits_measure pages_with_descendants_step (fun page => page)
                  pages_with_descendants_body xs ys v σ w) as H.
    cbv beta in H. rewrite !List.map_id in H. exact H.
  - exact (splits_measure spaces_step _normalize_space_key spaces_body).
Qed.

End SplitBatches.

(** ** More on space keys *)

Section SpaceKeys.
Context `{C : Collaborators}.

Lemma normalize_map_twice keys :
  List.map _normalize_space_key (List.map _normalize_space_key keys)
  = List.map _normalize_space_key keys.
Proof.
  induction keys as [|s keys IH]; [reflexivity|].
  cbn [List.map]. rewrite IH. f_equal.
  rewrite (normalize_spec s). destruct (home_prefix s) as [rest|] eqn:E.
  - rewrite normalize_spec.
    now destruct rest as [|c1 [|c2 [|c3 [|c4 [|c5 [|c6 [|c7 [|c8 rest]]]]]]]].
  - now rewrite normalize_spec, E.
Qed.

(** X5. [spaces] treats a key and its normalised form alike: the run on
    the keys is the run on the normalised keys, to the label of the
    measured scope. *)
Theorem spaces_prenormalized (space_keys : list str)
    (output_path : option Path) (σ : Settings) (w : World) :
  spaces (List.map _normalize_space_key space_keys) output_path σ w
  = spaces space_keys output_path σ w.
Proof. unfold spaces. now rewrite normalize_map_twice. Qed.

(** X6. An ordinary key is never altered: a key without a backslash, or
    without a colon, or of fewer than nine characters is returned as it
    is. *)
Theorem plain_key_unchanged (s : str) :
  ~ In 92 s \/ ~ In 58 s \/ (length s < 9)%nat ->
  _normalize_space_key s = s.
Proof.
  intros H. rewrite normalize_spec.
  destruct (home_prefix s) as [rest|] eqn:E; [|reflexivity].
  exfalso. unfold home_prefix in E.
  destruct s as [|d [|colon [|b1 [|cu [|cs [|ce [|cr [|cs' [|b2 rest']]]]]]]]];
    try discriminate.
  destruct (drive_letter d && (colon =? 58) && (b1 =? 92) && letter 117 cu
            && letter_s cs && letter 101 ce && letter 114 cr && letter_s cs'
            && (b2 =? 92)) eqn:Et; [|discriminate].
  rewrite !andb_true_iff in Et.
  destruct Et as [[[[[[[[_ Hc] Hb] _] _] _] _] _] _].
  apply N.eqb_eq in Hc, Hb. subst.
  destruct H as [H|[H|H]].
  - apply H. cbn. tauto.
  - apply H. cbn. tauto.
  - cbn in H. lia.
Qed.

(** X8. [all_spaces] in full: after the start of the measured scope and
    the override, [Organization.from_api] is called once; the
    organization it returns is exported at once, once; then the scope
    ends. An exception of either call ends the command with it. *)
Theorem all_spaces_shape (output_path : option Path) (σ : Settings)
    (w : World) :
  let ov := override_output_path_config output_path σ w in
  let res := all_spaces output_path σ w in
  exists t,
    events_of res
    = E_measure_enter (lit "Export all spaces")
      :: events_of ov ++ t ++ [E_measure_exit]
    /\ (outcome_of ov = Return tt ->
        batch_trace (fun (_ : unit) => E_Organization_from_api)
          E_Organization_export [tt] (outcome_of res) t)
    /\ (forall e, outcome_of ov = Raise e -> t = [] /\ outcome_of res = Raise e)
    /\ (outcome_of res = Return tt ->
        exists org,
          t = [E_Organization_from_api (Return org);
               E_Organization_export org (Return tt)]).
Proof.
  cbn zeta. unfold all_spaces.
  set (step := lit "Export all spaces"). clearbody step.
  pose proof (command_split step
                (let! org := call E_Organization_from_api Organization_from_api in
                 call (E_Organization_export org) (Organization_export org))
                output_path σ w) as Hsplit.
  unfold events_of, outcome_of in *.
  destruct (override_output_path_config output_path σ w)
    as [[[[[]|e0] σ0] w0] t0]; rewrite Hsplit; clear Hsplit; cbn [fst snd].
  - unfold bind, call, outcome_of, settings_of, world_of, events_of.
    destruct (Organization_from_api σ0 w0) as [[org|e] w1]; cbn.
    + destruct (Organization_export org σ0 w1) as [[[]|e] w2]; cbn.
      * exists [E_Organization_from_api (Return org);
                E_Organization_export org (Return tt)].
        split; [reflexivity|].
        split; [intros _;
                exact (batch_next (fun _ : unit => E_Organization_from_api)
                         E_Organization_export tt [] org (Return tt) []
                         (batch_done _ _))|].
        split; [discriminate|]. intros _. now exists org.
      * exists [E_Organization_from_api (Return org);
                E_Organization_export org (Raise e)].
        split; [reflexivity|].
        split; [intros _;
                exact (batch_export_raises
                         (fun _ : unit => E_Organization_from_api)
                         E_Organization_export tt [] org e)|].
        split; discriminate.
    + exists [E_Organization_from_api (Raise e)]. split; [reflexivity|].
      split; [intros _;
              exact (batch_ctor_raises (fun _ : unit => E_Organization_from_api)
                       E_Organization_export tt [] e)|].
      split; discriminate.
  - exists []. split; [reflexivity|]. split; [discriminate|].
    split; [now intros e [= <-] | discriminate].
Qed.

End SpaceKeys.

(** ** The further properties on the test double *)

Section MoreMockRuns.
#[local] Existing Instance Mock.collaborators.

(** X2 on the batch of the one token [123]. *)
Lemma from_id_argument_witness :
  In (E_Page_from_id 123 (Return (Mock.PageOfId 123)))
     (events_of (pages [lit "123"] None ∅ true))
  /\ (0 <= 123)%Z
  /\ exists token, In token [lit "123"] /\ numeric token
                   /\ 123%Z = parseInt token.
Proof.
  assert (Hin : In (E_Page_from_id 123 (Return (Mock.PageOfId 123)))
                  (events_of (pages [lit "123"] None ∅ true)))
    by (right; left; reflexivity).
  split; [exact Hin|].
  exact (from_id_argument (C := Mock.collaborators) [lit "123"] None ∅ true
           123%Z (Return (Mock.PageOfId 123)) (or_introl Hin)).
Defined.

(** X6 on the key [PROJ]. *)
Lemma plain_key_unchanged_witness :
  (length (lit "PROJ") < 9)%nat
  /\ _normalize_space_key (lit "PROJ") = lit "PROJ".
Proof.
  assert (H : (length (lit "PROJ") < 9)%nat) by (cbn; lia).
  split; [exact H|].
  exact (plain_key_unchanged (lit "PROJ") (or_intror (or_intror H))).
Defined.

(** X7 on [42] in ASCII and in Arabic-Indic digits. *)
Lemma same_number_same_page_witness :
  numeric (lit "42") /\ numeric [0x664; 0x662]
  /\ digit_values (lit "42") = digit_values [0x664; 0x662]
  /\ _page (lit "42") ∅ true = _page [0x664; 0x662] ∅ true.
Proof.
  assert (H1 : numeric (lit "42")).
  { split; [discriminate|]. split; [|reflexivity].
    repeat first [apply List.Forall_cons; [reflexivity|] | apply List.Forall_nil]. }
  assert (H2 : numeric [0x664; 0x662]).
  { split; [discriminate|]. split; [|reflexivity].
    repeat first [apply List.Forall_cons; [reflexivity|] | apply List.Forall_nil]. }
  split; [exact H1|]. split; [exact H2|]. split; [reflexivity|].
  exact (same_number_same_page (C := Mock.collaborators)
           (lit "42") [0x664; 0x662] ∅ true H1 H2 (or_introl eq_refl)).
Defined.

(** X4 on [pages] with the batch [123] followed by [456]. *)
Lemma batch_commands_split_witness :
  calls (events_of (pages ([lit "123"] ++ [lit "456"])
                      (Some (lit "/tmp/out")) ∅ true))
  = calls (events_of (pages [lit "123"] (Some (lit "/tmp/out")) ∅ true))
    ++ calls (events_of
                (pages [lit "456"] None
                   {["export.output_path"%string := VPath (lit "/tmp/out")]}
                   true)).
Proof.
  destruct (batch_commands_split (C := Mock.collaborators)) as (Hpages & _ & _).
  destruct (Hpages [lit "123"] [lit "456"] (Some (lit "/tmp/out")) ∅ true)
    as [Hret _].
  refine (let H := Hret
            {["export.output_path"%string := VPath (lit "/tmp/out")]} true
            (events_of (pages [lit "123"] (Some (lit "/tmp/out")) ∅ true)) _
          in proj2 (proj2 (proj2 H))).
  vm_compute. reflexivity.
Defined.

End MoreMockRuns.
